(** * NATHAN bot: a shallow embedding of [players/NATHAN_bot.py]

    The policy class [NATHANBot] is embedded method by method.  Python
    floats are IEEE 754 binary64 values, taken from the Standard Library's
    executable specification [SpecFloat]; Python ints are [Z]; dicts are
    [gmap]s; a method that reads or writes [self] is a computation in a
    state-and-exception monad over the instance record. *)

From Stdlib Require Import ZArith List Bool Lia.
From Stdlib Require Import Floats.SpecFloat.
From stdpp Require Import base option list sorting gmap strings.

Local Open Scope Z_scope.

(** ** Exceptions and fallible results *)

Inductive exn : Type :=
  | KeyError
  | ValueError
  | OverflowError
  | ZeroDivisionError.

Inductive result (A : Type) : Type :=
  | Ok (a : A)
  | Raise (e : exn).
Arguments Ok {A} a.
Arguments Raise {A} e.

#[global] Instance result_ret : MRet result := fun _ a => Ok a.
#[global] Instance result_bind : MBind result := fun _ _ k m =>
  match m with
  | Ok a => k a
  | Raise e => Raise e
  end.

(** ** Python floats: binary64 *)

Module Float64.

Definition prec : Z := 53.
Definition emax : Z := 1024.

Definition float : Type := spec_float.

Definition add : float -> float -> float := SFadd prec emax.
Definition sub : float -> float -> float := SFsub prec emax.
Definition mul : float -> float -> float := SFmul prec emax.
Definition div : float -> float -> float := SFdiv prec emax.
Definition ltb : float -> float -> bool := SFltb.
Definition leb : float -> float -> bool := SFleb.
Definition valid (x : float) : bool := valid_binary prec emax x.

(** The double nearest to an integer (round half to even); an integer of
    magnitude [2^1024] or more gives an infinity. *)
Definition of_Z (z : Z) : float := binary_normalize prec emax z 0 false.

(** A decimal literal [n/d] of the source: the double nearest to the
    quotient, which is what correctly rounded division of two exactly
    representable integers yields. *)
Definition dec (n d : Z) : float := div (of_Z n) (of_Z d).

Definition is_nan (x : float) : bool :=
  match x with S754_nan => true | _ => false end.
Definition is_infinite (x : float) : bool :=
  match x with S754_infinity _ => true | _ => false end.
Definition is_zero (x : float) : bool :=
  match x with S754_zero _ => true | _ => false end.

(** [x >= y] and [x > y] as Python evaluates them on floats. *)
Definition geb (x y : float) : bool := leb y x.
Definition gtb (x y : float) : bool := ltb y x.

(** [min(a, b)] and [max(a, b)] of Python: the first argument is kept
    unless the second is strictly smaller (larger). *)
Definition py_min (a b : float) : float := if ltb b a then b else a.
Definition py_max (a b : float) : float := if gtb b a then b else a.

(** [int(x)]: truncation toward zero. *)
Definition trunc (x : float) : result Z :=
  match x with
  | S754_nan => Raise ValueError
  | S754_infinity _ => Raise OverflowError
  | S754_zero _ => Ok 0
  | S754_finite s m e =>
      let mag := if 0 <=? e then Z.pos m * 2 ^ e else Z.pos m / 2 ^ (- e) in
      Ok (if s then - mag else mag)
  end.

(** Exact comparison of an int with a float, as Python's mixed
    comparison does it. *)
Definition Zcompare (z : Z) (x : float) : option comparison :=
  match x with
  | S754_nan => None
  | S754_infinity s => Some (if s then Gt else Lt)
  | S754_zero _ => Some (z ?= 0)
  | S754_finite s m e =>
      let v := if s then Z.neg m else Z.pos m in
      if 0 <=? e then Some (z ?= v * 2 ^ e) else Some (z * 2 ^ (- e) ?= v)
  end.

End Float64.

Abbreviation float := Float64.float.

(** ** Python numbers: an int or a float *)

Inductive num : Type :=
  | Int (z : Z)
  | Flt (x : float).

(** [float(z)] for an int operand of mixed arithmetic. *)
Definition int_to_float (z : Z) : result float :=
  let x := Float64.of_Z z in
  if Float64.is_infinite x then Raise OverflowError else Ok x.

Definition num_mul (a b : num) : result num :=
  match a, b with
  | Int x, Int y => Ok (Int (x * y))
  | Int x, Flt y => fx ← int_to_float x; Ok (Flt (Float64.mul fx y))
  | Flt x, Int y => fy ← int_to_float y; Ok (Flt (Float64.mul x fy))
  | Flt x, Flt y => Ok (Flt (Float64.mul x y))
  end.

Definition num_compare (a b : num) : option comparison :=
  match a, b with
  | Int x, Int y => Some (x ?= y)
  | Int x, Flt y => Float64.Zcompare x y
  | Flt x, Int y => CompOpp <$> Float64.Zcompare y x
  | Flt x, Flt y => SFcompare x y
  end.

(** [a > b] *)
Definition num_gtb (a b : num) : bool :=
  match num_compare a b with Some Gt => true | _ => false end.

(** [max(a, b)] *)
Definition num_max (a b : num) : num := if num_gtb b a then b else a.

(** [int(a)] *)
Definition num_int (a : num) : result Z :=
  match a with
  | Int z => Ok z
  | Flt x => Float64.trunc x
  end.

(** ** Cards ([engine.cards]) *)

(** Modelled from the spec: the [Rank] and [Card] declarations of
    [engine.cards] are outside the module; ranks run from 2 to Ace, the
    source names [Rank.KING] and [Rank.ACE], and its wheel test writes the
    ace as 14. *)
Inductive Rank : Type :=
  | TWO | THREE | FOUR | FIVE | SIX | SEVEN | EIGHT | NINE | TEN
  | JACK | QUEEN | KING | ACE.

Definition Rank_value (r : Rank) : Z :=
  match r with
  | TWO => 2 | THREE => 3 | FOUR => 4 | FIVE => 5 | SIX => 6 | SEVEN => 7
  | EIGHT => 8 | NINE => 9 | TEN => 10 | JACK => 11 | QUEEN => 12
  | KING => 13 | ACE => 14
  end.

(** Modelled from the spec: the suit enum of [engine.cards] is outside the
    module; the policy only compares suits for equality. *)
Inductive Suit : Type := HEARTS | DIAMONDS | CLUBS | SPADES.

(** Modelled from the spec: a card of [engine.cards] carries a rank and a
    suit, the two attributes the policy reads. *)
Record Card : Type := mkCard { rank : Rank; suit : Suit }.

#[global] Instance Rank_eq_dec : EqDecision Rank.
Proof. solve_decision. Defined.
#[global] Instance Suit_eq_dec : EqDecision Suit.
Proof. solve_decision. Defined.
#[global] Instance Card_eq_dec : EqDecision Card.
Proof. solve_decision. Defined.

Definition all_ranks : list Rank :=
  [TWO; THREE; FOUR; FIVE; SIX; SEVEN; EIGHT; NINE; TEN; JACK; QUEEN; KING; ACE].
Definition all_suits : list Suit := [HEARTS; DIAMONDS; CLUBS; SPADES].
Definition deck : list Card :=
  flat_map (fun r => map (mkCard r) all_suits) all_ranks.

(** ** Actions and game state ([bot_api], [engine.poker_game]) *)

(** The [PlayerAction] enum is declared in [bot_api]; the policy names four
    of its members.  [OTHER] stands for any further member the enum has. *)
Inductive PlayerAction : Type :=
  | FOLD | CHECK | CALL | RAISE
  | OTHER (tag : nat).

#[global] Instance PlayerAction_eq_dec : EqDecision PlayerAction.
Proof. solve_decision. Defined.

(** [a in legal_actions] *)
Definition action_in (a : PlayerAction) (l : list PlayerAction) : bool :=
  bool_decide (a ∈ l).

Record GameState : Type := mkGameState {
  round_name : string;
  current_bet : Z;
  pot : Z;
  big_blind : Z;
  player_bets : gmap string Z;
  community_cards : list Card
  }.

(** The dict returned by [GameInfoAPI.get_position_info]; the policy reads
    two keys, each with a default. *)
Record PositionInfo : Type := mkPositionInfo {
  is_last : option bool;
  players_after : option Z
  }.

(** The [hand_result] dict; the policy reads only its ['winners'] entry,
    after testing that the key is there. *)
Record HandResult : Type := mkHandResult {
  winners : option (list string)
  }.

(** ** The policy instance *)

Record OpponentStats : Type := mkStats {
  seen : Z;
  raised : Z;
  won : Z
  }.

Record NATHANBot : Type := mkBot {
  name : string;
  hands_played : Z;
  hands_won : Z;
  aggression : float;
  last_raised_preflop : bool;
  min_confidence_to_raise : float;
  min_confidence_to_play : float;
  opponent_stats : gmap string OpponentStats
  }.

Definition set_hands_played (v : Z) (s : NATHANBot) : NATHANBot :=
  mkBot (name s) v (hands_won s) (aggression s) (last_raised_preflop s)
        (min_confidence_to_raise s) (min_confidence_to_play s) (opponent_stats s).
Definition set_hands_won (v : Z) (s : NATHANBot) : NATHANBot :=
  mkBot (name s) (hands_played s) v (aggression s) (last_raised_preflop s)
        (min_confidence_to_raise s) (min_confidence_to_play s) (opponent_stats s).
Definition set_aggression (v : float) (s : NATHANBot) : NATHANBot :=
  mkBot (name s) (hands_played s) (hands_won s) v (last_raised_preflop s)
        (min_confidence_to_raise s) (min_confidence_to_play s) (opponent_stats s).
Definition set_last_raised_preflop (v : bool) (s : NATHANBot) : NATHANBot :=
  mkBot (name s) (hands_played s) (hands_won s) (aggression s) v
        (min_confidence_to_raise s) (min_confidence_to_play s) (opponent_stats s).
Definition set_opponent_stats (v : gmap string OpponentStats) (s : NATHANBot) : NATHANBot :=
  mkBot (name s) (hands_played s) (hands_won s) (aggression s) (last_raised_preflop s)
        (min_confidence_to_raise s) (min_confidence_to_play s) v.

(** [NATHANBot.__init__] *)
Definition init (nm : string) : NATHANBot :=
  {| name := nm;
     hands_played := 0;
     hands_won := 0;
     aggression := Float64.dec 6 10;
     last_raised_preflop := false;
     min_confidence_to_raise := Float64.dec 75 100;
     min_confidence_to_play := Float64.dec 45 100;
     opponent_stats := ∅ |}.

(** ** External collaborators

    [GameInfoAPI], [HandEvaluator] and the base class [PokerBotAPI] live
    outside the module; the policy is verified against any implementation
    of them. *)
Class EngineAPI : Type := {
  get_position_info : GameState -> string -> PositionInfo;
  calculate_bet_amount : Z -> Z -> Z;
  get_pot_odds : Z -> Z -> float;
  (** the hand-type label, first component of [evaluate_best_hand]'s
      triple; the other two are not read *)
  evaluate_best_hand : list Card -> string;
  HAND_RANKINGS : gmap string Z;
  super_tournament_start : list string -> Z -> NATHANBot -> NATHANBot
  }.

(** ** Methods as computations over the instance *)

Definition Bot (A : Type) : Type := NATHANBot -> result A * NATHANBot.

#[global] Instance Bot_ret : MRet Bot := fun _ a s => (Ok a, s).
#[global] Instance Bot_bind : MBind Bot := fun _ _ k m s =>
  match m s with
  | (Ok a, s') => k a s'
  | (Raise e, s') => (Raise e, s')
  end.

(** read an attribute of [self] *)
Definition self_get {A : Type} (f : NATHANBot -> A) : Bot A :=
  fun s => (Ok (f s), s).
(** assign to an attribute of [self] *)
Definition self_set (upd : NATHANBot -> NATHANBot) : Bot unit :=
  fun s => (Ok tt, upd s).
(** a computation that does not touch [self] *)
Definition lift {A : Type} (r : result A) : Bot A :=
  fun s => (r, s).

(** [d[k]] *)
Definition getitem {V : Type} (d : gmap string V) (k : string) : result V :=
  match d !! k with
  | Some v => Ok v
  | None => Raise KeyError
  end.

(** a [for] loop whose body runs on each element in turn *)
Definition for_each {A : Type} (l : list A) (body : A -> Bot unit) : Bot unit :=
  foldr (fun x rest => body x ;; rest) (mret tt) l.

(** [try: body / except Exception: pass] *)
Definition try_pass (body : Bot unit) : Bot unit :=
  fun s =>
    match body s with
    | (Ok u, s') => (Ok u, s')
    | (Raise _, s') => (Ok tt, s')
    end.

(** ** Helpers that do not read [self] *)

(** [x / y] on floats *)
Definition float_truediv (x y : float) : result float :=
  if Float64.is_zero y then Raise ZeroDivisionError else Ok (Float64.div x y).

(** [b * x] for a bool [b]: the bool is the int 0 or 1 *)
Definition bool_mul (b : bool) (x : float) : float :=
  Float64.mul (Float64.of_Z (Z.b2z b)) x.

(** [l.count(x)] *)
Definition count {A : Type} `{EqDecision A} (x : A) (l : list A) : Z :=
  Z.of_nat (length (filter (fun y => y = x) l)).

(** [set(xs).issubset(l)] *)
Definition issubset (xs l : list Z) : bool :=
  forallb (fun x => bool_decide (x ∈ l)) xs.

Definition _choose_raise_amount (game_state : GameState) (min_bet max_bet : Z)
    (factor : num) : result Z :=
  product ← num_mul (Int (pot game_state)) factor;
  desired ← num_int product;
  let amount := Z.max min_bet desired in
  let amount := Z.min amount max_bet in
  if amount <? min_bet then Ok min_bet else Ok amount.

Definition _has_strong_draw (all_cards : list Card) : bool :=
  let suits := map suit all_cards in
  if existsb (fun s => 4 <=? count s suits) (remove_dups suits) then true
  else
    let ranks := merge_sort Z.le (remove_dups (map (fun c => Rank_value (rank c)) all_cards)) in
    if (4 <=? length ranks)%nat
       && existsb (fun i =>
                     match ranks !! (i + 3)%nat, ranks !! i with
                     | Some hi, Some lo => hi - lo =? 3
                     | _, _ => false
                     end)
                  (seq 0 (length ranks - 3))
    then true
    else if issubset [14; 2; 3; 4] ranks || issubset [2; 3; 4; 5] ranks then true
    else false.

Definition _evaluate_preflop_strength (hole_cards : list Card) : result float :=
  match hole_cards with
  | [c1; c2] =>
      let r1 := Rank_value (rank c1) in
      let r2 := Rank_value (rank c2) in
      let suited := bool_decide (suit c1 = suit c2) in
      let high_card_bonus :=
        Float64.add (bool_mul (Rank_value KING <=? Z.max r1 r2) (Float64.dec 18 100))
                    (bool_mul (Z.max r1 r2 =? Rank_value ACE) (Float64.dec 12 100)) in
      let pair_bonus := if r1 =? r2 then Float64.dec 3 10 else Float64.of_Z 0 in
      let distance := Z.abs (r1 - r2) in
      let connector_bonus :=
        if distance <=? 1 then Float64.dec 15 100
        else if distance =? 2 then Float64.dec 8 100
        else Float64.of_Z 0 in
      let suited_bonus := if suited then Float64.dec 12 100 else Float64.of_Z 0 in
      base ← float_truediv (Float64.of_Z (r1 + r2))
                           (Float64.mul (Float64.of_Z 2) (Float64.of_Z (Rank_value ACE)));
      let score :=
        Float64.add
          (Float64.add
             (Float64.add
                (Float64.add (Float64.mul base (Float64.dec 4 10)) pair_bonus)
                connector_bonus)
             suited_bonus)
          high_card_bonus in
      Ok (Float64.py_min (Float64.of_Z 1) score)
  | _ => Raise ValueError
  end.

Section Policy.
Context `{EngineAPI}.

Definition _should_bluff_or_value (pot rank_value : Z) : Bot bool :=
  if default 1 (HAND_RANKINGS !! "pair"%string) <=? rank_value then
    a ← self_get aggression;
    scaled ← lift (num_mul (Flt a) (Int 10));
    bound ← lift (num_mul (Int 2) (num_max (Int 1) scaled));
    mret (num_gtb (Int pot) bound)
  else
    a ← self_get aggression;
    mret (Float64.gtb a (Float64.dec 6 10)).

Definition _preflop (game_state : GameState) (hole_cards : list Card)
    (legal_actions : list PlayerAction) (min_bet max_bet : Z)
    : Bot (PlayerAction * Z) :=
  if negb (length hole_cards =? 2)%nat then mret (FOLD, 0)
  else
    confidence ← lift (_evaluate_preflop_strength hole_cards);
    nm ← self_get name;
    let pos := get_position_info game_state nm in
    let late := default false (is_last pos) || (default 0 (players_after pos) <=? 1) in
    let to_call :=
      calculate_bet_amount (current_bet game_state)
                           (default 0 (player_bets game_state !! nm)) in
    let otherwise : Bot (PlayerAction * Z) :=
      if action_in CHECK legal_actions then mret (CHECK, 0) else mret (FOLD, 0) in
    let medium : Bot (PlayerAction * Z) :=
      to_play ← self_get min_confidence_to_play;
      if Float64.geb confidence to_play then
        if to_call =? 0 then
          if action_in CHECK legal_actions then mret (CHECK, 0)
          else if late && action_in RAISE legal_actions then
            amount ← lift (_choose_raise_amount game_state min_bet max_bet
                                                (Flt (Float64.dec 15 10)));
            mret (RAISE, amount)
          else otherwise
        else
          let pot_odds := get_pot_odds (pot game_state) to_call in
          if Float64.geb pot_odds (Float64.dec 25 10) && action_in CALL legal_actions
          then mret (CALL, 0)
          else otherwise
      else otherwise in
    to_raise ← self_get min_confidence_to_raise;
    if Float64.geb confidence to_raise then
      if action_in RAISE legal_actions then
        amount ← lift (_choose_raise_amount game_state min_bet max_bet
                         (Flt (if late then Float64.dec 25 10 else Float64.of_Z 2)));
        mret (RAISE, amount)
      else if action_in CALL legal_actions && (to_call <=? big_blind game_state * 2)
      then mret (CALL, 0)
      else medium
    else medium.

(** the local helper of [_postflop] *)
Definition fallback_check_call_fold (legal_actions : list PlayerAction)
    : PlayerAction * Z :=
  if action_in CHECK legal_actions then (CHECK, 0)
  else if action_in CALL legal_actions then (CALL, 0)
  else (FOLD, 0).

Definition _postflop (game_state : GameState) (hole_cards : list Card)
    (legal_actions : list PlayerAction) (min_bet max_bet : Z)
    : Bot (PlayerAction * Z) :=
  let all_cards := hole_cards ++ community_cards game_state in
  let hand_type := evaluate_best_hand all_cards in
  rank_value ← lift (getitem HAND_RANKINGS hand_type);
  let pair_rank := default 1 (HAND_RANKINGS !! "pair"%string) in
  let two_pair_rank := default 2 (HAND_RANKINGS !! "two_pair"%string) in
  let rest : Bot (PlayerAction * Z) :=
    if two_pair_rank <=? rank_value then
      if action_in RAISE legal_actions then
        amount ← lift (_choose_raise_amount game_state min_bet max_bet (Int 1));
        mret (RAISE, amount)
      else mret (fallback_check_call_fold legal_actions)
    else if pair_rank <=? rank_value then
      let pot := pot game_state in
      if action_in CALL legal_actions then
        nm ← self_get name;
        contributed ← lift (getitem (player_bets game_state) nm);
        let to_call := calculate_bet_amount (current_bet game_state) contributed in
        let pot_odds := get_pot_odds pot to_call in
        if Float64.geb pot_odds (Float64.dec 15 10) || (to_call =? 0) then
          if action_in RAISE legal_actions then
            value ← _should_bluff_or_value pot rank_value;
            if value : bool then
              amount ← lift (_choose_raise_amount game_state min_bet max_bet (Int 1));
              mret (RAISE, amount)
            else mret (CALL, 0)
          else mret (CALL, 0)
        else mret (fallback_check_call_fold legal_actions)
      else mret (fallback_check_call_fold legal_actions)
    else if _has_strong_draw all_cards then
      nm ← self_get name;
      let to_call :=
        calculate_bet_amount (current_bet game_state)
                             (default 0 (player_bets game_state !! nm)) in
      let pot_odds := get_pot_odds (pot game_state) to_call in
      if (to_call =? 0) && action_in RAISE legal_actions then
        amount ← lift (_choose_raise_amount game_state min_bet max_bet
                                            (Flt (Float64.dec 6 10)));
        mret (RAISE, amount)
      else if Float64.geb pot_odds (Float64.of_Z 3) && action_in CALL legal_actions
      then mret (CALL, 0)
      else mret (fallback_check_call_fold legal_actions)
    else mret (fallback_check_call_fold legal_actions) in
  raised_preflop ← self_get last_raised_preflop;
  if raised_preflop && (current_bet game_state =? 0) && action_in RAISE legal_actions
  then
    if (pair_rank <=? rank_value) || _has_strong_draw all_cards then
      amount ← lift (_choose_raise_amount game_state min_bet max_bet
                                          (Flt (Float64.dec 6 10)));
      mret (RAISE, amount)
    else rest
  else rest.

Definition get_action (game_state : GameState) (hole_cards : list Card)
    (legal_actions : list PlayerAction) (min_bet max_bet : Z)
    : Bot (PlayerAction * Z) :=
  match legal_actions with
  | [] => mret (FOLD, 0)
  | _ :: _ =>
      if String.eqb (round_name game_state) "preflop" then
        action ← _preflop game_state hole_cards legal_actions min_bet max_bet;
        (if bool_decide (action.1 = RAISE)
         then self_set (set_last_raised_preflop true)
         else self_set (set_last_raised_preflop false));;
        mret action
      else _postflop game_state hole_cards legal_actions min_bet max_bet
  end.

(** one pass of the opponent-statistics loop of [hand_complete] *)
Definition update_opponent (game_state : GameState) (hand_result : HandResult)
    (entry : string * Z) : Bot unit :=
  let '(player, bet) := entry in
  nm ← self_get name;
  if bool_decide (player = nm) then mret tt
  else
    table ← self_get opponent_stats;
    let stats := default (mkStats 0 0 0) (table !! player) in
    let stats := mkStats (seen stats + 1) (raised stats) (won stats) in
    let stats :=
      if big_blind game_state * 2 <? bet
      then mkStats (seen stats) (raised stats + 1) (won stats)
      else stats in
    let stats :=
      match winners hand_result with
      | Some ws =>
          if bool_decide (player ∈ ws)
          then mkStats (seen stats) (raised stats) (won stats + 1)
          else stats
      | None => stats
      end in
    self_set (set_opponent_stats (<[player := stats]> table)).

(** The loop runs over the entries of [player_bets]; each pass touches the
    record of its own player only, so the order of the passes does not
    matter. *)
Definition hand_complete (game_state : GameState) (hand_result : HandResult)
    : Bot unit :=
  played ← self_get hands_played;
  self_set (set_hands_played (played + 1));;
  nm ← self_get name;
  (match winners hand_result with
   | Some ws =>
       if bool_decide (nm ∈ ws) then
         won_so_far ← self_get hands_won;
         self_set (set_hands_won (won_so_far + 1));;
         a ← self_get aggression;
         self_set (set_aggression
                     (Float64.py_min (Float64.dec 8 10)
                                     (Float64.add a (Float64.dec 1 100))))
       else
         a ← self_get aggression;
         self_set (set_aggression
                     (Float64.py_max (Float64.dec 3 10)
                                     (Float64.sub a (Float64.dec 5 1000))))
   | None =>
       a ← self_get aggression;
       self_set (set_aggression
                   (Float64.py_max (Float64.dec 3 10)
                                   (Float64.sub a (Float64.dec 5 1000))))
   end);;
  try_pass (for_each (map_to_list (player_bets game_state))
                     (update_opponent game_state hand_result)).

Definition tournament_start (players : list string) (starting_chips : Z)
    : Bot unit :=
  self_set (super_tournament_start players starting_chips);;
  self_set (set_hands_played 0);;
  self_set (set_hands_won 0);;
  if (length players <=? 4)%nat then self_set (set_aggression (Float64.dec 65 100))
  else if (8 <=? length players)%nat then self_set (set_aggression (Float64.dec 45 100))
  else self_set (set_aggression (Float64.dec 55 100)).

End Policy.

(** ** An engine instance for concrete runs *)

Module SampleEngine.

(** Modelled from the spec: [GameInfoAPI.calculate_bet_amount] is outside
    the module; the amount owed is [max(0, current_bet - contributed)]. *)
Definition calculate_bet_amount (current_bet contributed : Z) : Z :=
  Z.max 0 (current_bet - contributed).

(** Modelled from the spec: [GameInfoAPI.get_pot_odds] is outside the
    module; pot odds are the pot divided by the amount owed, and nothing
    owed is the free case, better than any finite odds. *)
Definition get_pot_odds (pot owed : Z) : float :=
  if owed =? 0 then S754_infinity false
  else Float64.div (Float64.of_Z pot) (Float64.of_Z owed).

(** Modelled from the spec: [GameInfoAPI.get_position_info] is outside the
    module; it reports whether the player acts last and how many act
    after.  The sample table seats the player early, two players behind. *)
Definition get_position_info (_ : GameState) (_ : string) : PositionInfo :=
  {| is_last := Some false; players_after := Some 2 |}.

(** Modelled from the spec: [HandEvaluator] is outside the module; it maps
    the visible cards to a category label, and labels to ordinals that
    grow with strength.  The sample evaluator uses the standard poker
    categories; [rank_counts] counts the cards of each rank. *)
Definition rank_counts (cards : list Card) : list Z :=
  map (fun r => count r (map rank cards)) all_ranks.

(** Modelled from the spec: part of the sample [HandEvaluator]; five
    consecutive rank values, the ace also counting as 1. *)
Definition has_straight (values : list Z) : bool :=
  existsb (fun lo =>
             forallb (fun k =>
                        let v := lo + k in
                        bool_decide ((if v =? 1 then 14 else v) ∈ values))
                     [0; 1; 2; 3; 4])
          [1; 2; 3; 4; 5; 6; 7; 8; 9; 10].

(** Modelled from the spec: [HandEvaluator.evaluate_best_hand] is outside
    the module; the label of the best category the cards make. *)
Definition evaluate_best_hand (cards : list Card) : string :=
  let counts := rank_counts cards in
  let values := map (fun c => Rank_value (rank c)) cards in
  let of_suit s := filter (fun c => suit c = s) cards in
  let flush := existsb (fun s => (5 <=? length (of_suit s))%nat) all_suits in
  let straight_flush :=
    existsb (fun s =>
               (5 <=? length (of_suit s))%nat
               && has_straight (map (fun c => Rank_value (rank c)) (of_suit s)))
            all_suits in
  let pairs := length (filter (fun n => 2 <= n) counts) in
  let trips := length (filter (fun n => 3 <= n) counts) in
  let quads := length (filter (fun n => 4 <= n) counts) in
  (if straight_flush then "straight_flush"
   else if (1 <=? quads)%nat then "four_of_a_kind"
   else if (1 <=? trips)%nat && (2 <=? pairs)%nat then "full_house"
   else if flush then "flush"
   else if has_straight values then "straight"
   else if (1 <=? trips)%nat then "three_of_a_kind"
   else if (2 <=? pairs)%nat then "two_pair"
   else if (1 <=? pairs)%nat then "pair"
   else "high_card")%string.

(** Modelled from the spec: [HandEvaluator.HAND_RANKINGS] is outside the
    module; ordinals grow with strength, ["pair"] and ["two_pair"] among
    the labels. *)
Definition HAND_RANKINGS : gmap string Z :=
  list_to_map
    [("high_card", 1); ("pair", 2); ("two_pair", 3); ("three_of_a_kind", 4);
     ("straight", 5); ("flush", 6); ("full_house", 7); ("four_of_a_kind", 8);
     ("straight_flush", 9)]%string.

(** Modelled from the spec: [PokerBotAPI.tournament_start] is outside the
    module; the base hook keeps no state of the policy. *)
Definition super_tournament_start (_ : list string) (_ : Z) (s : NATHANBot)
    : NATHANBot := s.

Definition engine : EngineAPI :=
  Build_EngineAPI get_position_info calculate_bet_amount get_pot_odds
                  evaluate_best_hand HAND_RANKINGS super_tournament_start.

End SampleEngine.

(** ** Sequences of decisions *)

Record Call : Type := mkCall {
  call_state : GameState;
  call_hole : list Card;
  call_legal : list PlayerAction;
  call_min : Z;
  call_max : Z
  }.

Definition is_preflop (c : Call) : bool :=
  String.eqb (round_name (call_state c)) "preflop".

Definition decide_call `{EngineAPI} (c : Call) : Bot (PlayerAction * Z) :=
  get_action (call_state c) (call_hole c) (call_legal c) (call_min c) (call_max c).

(** The engine calls [get_action] once per decision; [run] threads the
    instance through the calls and logs each outcome, oldest first. *)
Fixpoint run `{EngineAPI} (cs : list Call) (s : NATHANBot)
    : list (Call * result (PlayerAction * Z)) * NATHANBot :=
  match cs with
  | [] => ([], s)
  | c :: cs' =>
      let '(r, s') := decide_call c s in
      let '(log, s'') := run cs' s' in
      ((c, r) :: log, s'')
  end.

Definition returned_raise (r : result (PlayerAction * Z)) : bool :=
  match r with
  | Ok (RAISE, _) => true
  | _ => false
  end.

(** Whether the latest preflop decision of a log returned a raise; [flag]
    is the answer when the log has no preflop decision. *)
Definition last_preflop_raise (flag : bool)
    (log : list (Call * result (PlayerAction * Z))) : bool :=
  fold_left (fun acc entry => if is_preflop entry.1 then returned_raise entry.2 else acc)
            log flag.

(** whether a call takes the preflop branch of [get_action] *)
Definition preflop_branch (game_state : GameState)
    (legal_actions : list PlayerAction) : bool :=
  match legal_actions with
  | [] => false
  | _ :: _ => String.eqb (round_name game_state) "preflop"
  end.

(** The same, counting only the preflop decisions that reached the
    assignment: legal actions present and [_preflop] returned. *)
Definition last_recorded_raise (flag : bool)
    (log : list (Call * result (PlayerAction * Z))) : bool :=
  fold_left (fun acc entry =>
               match entry.2 with
               | Ok action =>
                   if preflop_branch (call_state entry.1) (call_legal entry.1)
                   then bool_decide (action.1 = RAISE)
                   else acc
               | Raise _ => acc
               end)
            log flag.

(** ** Properties of computations *)

(** every run of [m] relates the instance before to the instance after *)
Definition changes_only {A : Type} (R : relation NATHANBot) (m : Bot A) : Prop :=
  forall s, R s (m s).2.

(** every value [m] returns satisfies [Q] *)
Definition returns_only {A : Type} (Q : A -> Prop) (m : Bot A) : Prop :=
  forall s a s', m s = (Ok a, s') -> Q a.

(** all attributes but [last_raised_preflop] agree *)
Definition same_but_flag (s s' : NATHANBot) : Prop :=
  name s' = name s
  /\ hands_played s' = hands_played s
  /\ hands_won s' = hands_won s
  /\ aggression s' = aggression s
  /\ min_confidence_to_raise s' = min_confidence_to_raise s
  /\ min_confidence_to_play s' = min_confidence_to_play s
  /\ opponent_stats s' = opponent_stats s.

(** all attributes but [opponent_stats] agree *)
Definition same_but_stats (s s' : NATHANBot) : Prop :=
  name s' = name s
  /\ hands_played s' = hands_played s
  /\ hands_won s' = hands_won s
  /\ aggression s' = aggression s
  /\ last_raised_preflop s' = last_raised_preflop s
  /\ min_confidence_to_raise s' = min_confidence_to_raise s
  /\ min_confidence_to_play s' = min_confidence_to_play s.

(** the sizing factors the policy passes *)
Definition policy_factors : list num :=
  [Flt (Float64.dec 25 10); Flt (Float64.of_Z 2); Flt (Float64.dec 15 10);
   Flt (Float64.dec 6 10); Int 1].

(** [m], run on [s], returns and leaves [s] as it was *)
Definition returns_at {A : Type} (m : Bot A) (s : NATHANBot) : Prop :=
  exists a, m s = (Ok a, s).

(** the action is one of the legal ones, or the fold default *)
Definition legal_or_fold (legal_actions : list PlayerAction)
    (action : PlayerAction * Z) : Prop :=
  action.1 ∈ legal_actions \/ action.1 = FOLD.

(** [hand_result] lists the policy's owner as a winner *)
Definition is_winner (hand_result : HandResult) (s : NATHANBot) : bool :=
  match winners hand_result with
  | Some ws => bool_decide (name s ∈ ws)
  | None => false
  end.

(** the invariant on [aggression]: a well-formed double in [0.3, 0.8] *)
Definition aggression_in_range (s : NATHANBot) : Prop :=
  Float64.valid (aggression s) = true
  /\ Float64.leb (Float64.dec 3 10) (aggression s) = true
  /\ Float64.leb (aggression s) (Float64.dec 8 10) = true.

(** the preflop estimate of a two-card hand is a number in [0, 1] *)
Definition strength_in_unit (c1 c2 : Card) : bool :=
  match _evaluate_preflop_strength [c1; c2] with
  | Ok x => Float64.leb (Float64.of_Z 0) x && Float64.leb x (Float64.of_Z 1)
  | Raise _ => false
  end.

(** a suit held by at least four of the cards *)
Definition four_to_a_suit (all_cards : list Card) : Prop :=
  exists s, 4 <= count s (map suit all_cards).

(** every rank of [rs] is the rank of one of the cards *)
Definition ranks_present (rs : list Rank) (all_cards : list Card) : Prop :=
  forall r, r ∈ rs -> r ∈ map rank all_cards.

(** ** Further notions for the policy's behaviour *)

(** a returned pair is well sized: a raise carries an amount of at least
    [min_bet], and of at most [max_bet] when the bounds are ordered; the
    other three actions carry 0; no other action is returned *)
Definition well_sized (min_bet max_bet : Z) (action : PlayerAction * Z) : Prop :=
  match action with
  | (RAISE, n) => min_bet <= n /\ (min_bet <= max_bet -> n <= max_bet)
  | (FOLD, n) | (CHECK, n) | (CALL, n) => n = 0
  | (OTHER _, _) => False
  end.

(** the continuation-bet guard of [_postflop] *)
Definition cbet_guard (s : NATHANBot) (game_state : GameState)
    (legal_actions : list PlayerAction) : bool :=
  last_raised_preflop s && (current_bet game_state =? 0)
  && action_in RAISE legal_actions.

(** a pocket pair of jacks or better *)
Definition jacks_or_better (c1 c2 : Card) : bool :=
  bool_decide (rank c1 = rank c2) && (Rank_value JACK <=? Rank_value (rank c1)).

(** the preflop estimate, with a NaN where the method raises *)
Definition estimate (c1 c2 : Card) : float :=
  match _evaluate_preflop_strength [c1; c2] with
  | Ok x => x
  | Raise _ => S754_nan
  end.

(** the rank values of the cards *)
Definition rank_values (all_cards : list Card) : list Z :=
  map (fun c => Rank_value (rank c)) all_cards.

(** four consecutive rank values among the cards *)
Definition four_in_a_row (all_cards : list Card) : Prop :=
  exists v, forall k, 0 <= k <= 3 -> v + k ∈ rank_values all_cards.

(** ace, 2, 3 and 4 among the cards, the ace counted as 14 *)
Definition ace_low_run (all_cards : list Card) : Prop :=
  forall v, v ∈ [14; 2; 3; 4] -> v ∈ rank_values all_cards.

(** ** The life of an instance *)

Inductive Event : Type :=
  | Decision (c : Call)
  | HandComplete (game_state : GameState) (hand_result : HandResult)
  | TournamentStart (players : list string) (starting_chips : Z).

(** the instance after the engine's call for one event *)
Definition handle `{EngineAPI} (s : NATHANBot) (e : Event) : NATHANBot :=
  match e with
  | Decision c => (decide_call c s).2
  | HandComplete game_state hand_result => (hand_complete game_state hand_result s).2
  | TournamentStart players starting_chips =>
      (tournament_start players starting_chips s).2
  end.

Definition lifecycle `{EngineAPI} (events : list Event) (s : NATHANBot) : NATHANBot :=
  fold_left handle events s.

(** the counters make sense: no more hands won than played *)
Definition counters_consistent (s : NATHANBot) : Prop :=
  0 <= hands_won s <= hands_played s.

(** the record of one opponent after a hand in which [bet] was the
    opponent's final bet *)
Definition hand_recorded (game_state : GameState) (hand_result : HandResult)
    (player : string) (bet : Z) (before after : OpponentStats) : Prop :=
  seen after = seen before + 1
  /\ raised after = raised before + (if big_blind game_state * 2 <? bet then 1 else 0)
  /\ won after =
     won before
     + (match winners hand_result with
        | Some ws => if bool_decide (player ∈ ws) then 1 else 0
        | None => 0
        end).

(** what the counter updates of [hand_complete] leave alone *)
Definition same_but_counters (s s' : NATHANBot) : Prop :=
  name s' = name s
  /\ last_raised_preflop s' = last_raised_preflop s
  /\ min_confidence_to_raise s' = min_confidence_to_raise s
  /\ min_confidence_to_play s' = min_confidence_to_play s
  /\ opponent_stats s' = opponent_stats s.

(** ** The doubles of the aggression update *)

Definition m03 : positive := 5404319552844595.
Definition m08 : positive := 7205759403792794.
Definition c01 : positive := 5764607523034235.
Definition f03 : float := S754_finite false m03 (-54).
Definition f08 : float := S754_finite false m08 (-53).
Definition f001 : float := S754_finite false c01 (-59).
Definition f0005 : float := S754_finite false c01 (-60).

(** ** Concrete inputs *)

Module Examples.

Definition me : NATHANBot := init "NATHAN".

Definition aces : list Card := [mkCard ACE SPADES; mkCard ACE HEARTS].
Definition seven_deuce : list Card := [mkCard SEVEN CLUBS; mkCard TWO DIAMONDS].
Definition dry_flop : list Card :=
  [mkCard SEVEN CLUBS; mkCard TWO DIAMONDS; mkCard NINE HEARTS].
Definition wheel_cards : list Card :=
  [mkCard ACE SPADES; mkCard TWO HEARTS; mkCard THREE SPADES; mkCard FOUR CLUBS;
   mkCard NINE HEARTS].

(** preflop, blinds 5/10, pot 30, nothing recorded for the policy *)
Definition preflop_state : GameState :=
  {| round_name := "preflop"; current_bet := 10; pot := 30; big_blind := 10;
     player_bets := ∅; community_cards := [] |}.

(** the flop, a bet of 10 to call, and a [player_bets] without the policy's
    own entry *)
Definition flop_state : GameState :=
  {| round_name := "flop"; current_bet := 10; pot := 30; big_blind := 10;
     player_bets := {[ "villain"%string := 10 ]}; community_cards := dry_flop |}.

(** the same flop with the policy's entry present *)
Definition flop_state_with_entry : GameState :=
  {| round_name := "flop"; current_bet := 10; pot := 30; big_blind := 10;
     player_bets := {[ "villain"%string := 10; "NATHAN"%string := 0 ]};
     community_cards := dry_flop |}.

(** a raise with aces, then a preflop call without legal actions, then a
    flop decision *)
Definition stale_calls : list Call :=
  [ mkCall preflop_state aces [FOLD; CALL; RAISE] 20 1000;
    mkCall preflop_state aces [] 20 1000;
    mkCall flop_state_with_entry aces [FOLD; CALL] 20 1000 ].

(** an instance in mid-tournament *)
Definition seasoned : NATHANBot :=
  {| name := "NATHAN"; hands_played := 12; hands_won := 5;
     aggression := Float64.dec 65 100; last_raised_preflop := false;
     min_confidence_to_raise := Float64.dec 75 100;
     min_confidence_to_play := Float64.dec 45 100;
     opponent_stats := ∅ |}.

End Examples.

(** ** Further sample inputs *)

Module Scenarios.

(** two pair on [Examples.dry_flop] *)
Definition sevens_and_deuces : list Card :=
  [mkCard SEVEN HEARTS; mkCard TWO CLUBS].

(** the sample engine with a ranking table that lists no hand type *)
Definition engine_without_rankings : EngineAPI :=
  Build_EngineAPI SampleEngine.get_position_info SampleEngine.calculate_bet_amount
                  SampleEngine.get_pot_odds SampleEngine.evaluate_best_hand ∅
                  SampleEngine.super_tournament_start.

End Scenarios.


(** * Facts on binary64 rounding *)

Lemma digits2_pos_log2 (m : positive) :
  Z.pos (digits2_pos m) = Z.log2 (Z.pos m) + 1.
Proof.
  induction m as [m IH|m IH|]; simpl; try reflexivity.
  - rewrite Pos2Z.inj_succ, IH.
    destruct m; simpl in *; lia.
  - rewrite Pos2Z.inj_succ, IH.
    destruct m; simpl in *; lia.
Qed.

Lemma digits2_pos_bounds (m : positive) :
  2 ^ (Z.pos (digits2_pos m) - 1) <= Z.pos m < 2 ^ Z.pos (digits2_pos m).
Proof.
  rewrite digits2_pos_log2.
  pose proof (Z.log2_spec (Z.pos m) ltac:(lia)) as Hs.
  replace (Z.log2 (Z.pos m) + 1 - 1) with (Z.log2 (Z.pos m)) by lia.
  replace (Z.log2 (Z.pos m) + 1) with (Z.succ (Z.log2 (Z.pos m))) by lia.
  exact Hs.
Qed.

Lemma digits2_pos_unique (m : positive) (d : Z) :
  2 ^ (d - 1) <= Z.pos m < 2 ^ d -> Z.pos (digits2_pos m) = d.
Proof.
  intros Hb. rewrite digits2_pos_log2.
  assert (0 <= d - 1).
  { destruct (Z.le_gt_cases 0 (d - 1)) as [|Hneg]; [assumption|].
    assert (d <= 0) by lia.
    destruct (Z.eq_dec d 0) as [->|]; [simpl in Hb; lia|].
    rewrite (Z.pow_neg_r 2 d) in Hb by lia. lia. }
  rewrite (Z.log2_unique (Z.pos m) (d - 1)); [lia | assumption |].
  replace (Z.succ (d - 1)) with d by lia. exact Hb.
Qed.

Lemma shr_1_m (r : shr_record) :
  0 <= shr_m r -> shr_m (shr_1 r) = shr_m r / 2.
Proof.
  destruct r as [m rb sb]. simpl. intros Hm.
  destruct m as [|p|p]; [reflexivity| |lia].
  destruct p as [p|p|]; simpl.
  - rewrite Pos2Z.inj_xI. apply Z.div_unique with (r := 1); lia.
  - rewrite Pos2Z.inj_xO. apply Z.div_unique with (r := 0); lia.
  - reflexivity.
Qed.

Lemma shr_iter_m (n : positive) (r : shr_record) :
  0 <= shr_m r -> shr_m (SpecFloat.iter_pos shr_1 n r) = shr_m r / 2 ^ Z.pos n.
Proof.
  revert r. induction n as [n IH|n IH|]; intros r Hr; simpl SpecFloat.iter_pos.
  - assert (H1 : 0 <= shr_m (shr_1 r)) by (rewrite shr_1_m by assumption; apply Z.div_pos; lia).
    assert (H2 : 0 <= shr_m (SpecFloat.iter_pos shr_1 n (shr_1 r)))
      by (rewrite IH by assumption; apply Z.div_pos; [assumption|apply Z.pow_pos_nonneg; lia]).
    rewrite IH, IH, shr_1_m by assumption.
    rewrite !Z.div_div by (try apply Z.pow_pos_nonneg; lia).
    assert (E : 2 ^ Z.pos n~1 = 2 * 2 ^ Z.pos n * 2 ^ Z.pos n).
    { rewrite Pos2Z.inj_xI.
      replace (2 * Z.pos n + 1) with (1 + Z.pos n + Z.pos n) by lia.
      rewrite !Z.pow_add_r by lia. reflexivity. }
    rewrite E. f_equal. lia.
  - assert (H2 : 0 <= shr_m (SpecFloat.iter_pos shr_1 n r))
      by (rewrite IH by assumption; apply Z.div_pos; [assumption|apply Z.pow_pos_nonneg; lia]).
    rewrite IH, IH by assumption.
    rewrite !Z.div_div by (try apply Z.pow_pos_nonneg; lia).
    assert (E : 2 ^ Z.pos n~0 = 2 ^ Z.pos n * 2 ^ Z.pos n).
    { rewrite <- Z.pow_add_r by lia. f_equal. lia. }
    rewrite E. reflexivity.
  - rewrite shr_1_m by assumption. reflexivity.
Qed.

Lemma round_nearest_even_bounds (m : Z) (l : location) :
  m <= round_nearest_even m l <= m + 1.
Proof.
  destruct l as [|[]]; simpl; try lia.
  destruct (Z.even m); lia.
Qed.


Lemma fexp_normal (e : Z) : -1021 <= e -> fexp 53 1024 e = e - 53.
Proof. intros He. unfold fexp, emin. lia. Qed.

Lemma shr_fexp_shift (m e : Z) (l : location) (k : positive) :
  fexp 53 1024 (Zdigits2 m + e) - e = Z.pos k ->
  shr_fexp 53 1024 m e l =
  (SpecFloat.iter_pos shr_1 k (shr_record_of_loc m l), e + Z.pos k).
Proof. intros Hk. unfold shr_fexp. rewrite Hk. reflexivity. Qed.

Lemma shr_fexp_keep (m e : Z) (l : location) :
  fexp 53 1024 (Zdigits2 m + e) - e = 0 ->
  shr_fexp 53 1024 m e l = (shr_record_of_loc m l, e).
Proof. intros Hk. unfold shr_fexp. rewrite Hk. reflexivity. Qed.

Lemma shr_record_of_loc_m (m : Z) (l : location) : shr_m (shr_record_of_loc m l) = m.
Proof. destruct l as [|[]]; reflexivity. Qed.

(** Rounding a positive integer mantissa of [53 + k] bits, [k > 0], in the
    normal range: the mantissa is cut to 53 bits and moved up by at most
    one unit in the last place. *)
Lemma binary_round_aux_normal (M : positive) (E : Z) (k : positive) :
  Z.pos (digits2_pos M) = 53 + Z.pos k ->
  -1074 <= E + Z.pos k -> E + Z.pos k + 1 <= 971 ->
  exists m' e',
    binary_round_aux 53 1024 false (Z.pos M) E loc_Exact = S754_finite false m' e'
    /\ 2 ^ 52 <= Z.pos m' < 2 ^ 53
    /\ ((e' = E + Z.pos k
         /\ Z.pos M / 2 ^ Z.pos k <= Z.pos m' <= Z.pos M / 2 ^ Z.pos k + 1)
        \/ (e' = E + Z.pos k + 1 /\ Z.pos m' = 2 ^ 52
            /\ Z.pos M / 2 ^ Z.pos k = 2 ^ 53 - 1)).
Proof.
  intros Hd Hlo Hhi.
  pose proof (digits2_pos_bounds M) as HM. rewrite Hd in HM.
  assert (Hpk : 0 < 2 ^ Z.pos k) by (apply Z.pow_pos_nonneg; lia).
  set (x := Z.pos M / 2 ^ Z.pos k).
  assert (Hx : 2 ^ 52 <= x < 2 ^ 53).
  { unfold x. split.
    - apply Z.div_le_lower_bound; [lia|].
      rewrite <- Z.pow_add_r by lia.
      replace (Z.pos k + 52) with (53 + Z.pos k - 1) by lia. apply HM.
    - apply Z.div_lt_upper_bound; [lia|].
      rewrite <- Z.pow_add_r by lia.
      replace (Z.pos k + 53) with (53 + Z.pos k) by lia. apply HM. }
  unfold binary_round_aux.
  rewrite (shr_fexp_shift (Z.pos M) E loc_Exact k).
  2:{ simpl Zdigits2. rewrite Hd. unfold fexp, emin. lia. }
  assert (Hm1 : shr_m (SpecFloat.iter_pos shr_1 k (shr_record_of_loc (Z.pos M) loc_Exact)) = x).
  { rewrite shr_iter_m by (simpl; lia). reflexivity. }
  rewrite Hm1.
  set (l1 := loc_of_shr_record _).
  pose proof (round_nearest_even_bounds x l1) as Hy.
  set (y := round_nearest_even x l1) in *.
  destruct (Z.eq_dec y (2 ^ 53)) as [Hy53|Hy53].
  - (* the rounded mantissa overflowed to 2^53 *)
    rewrite (shr_fexp_shift y (E + Z.pos k) loc_Exact 1).
    2:{ rewrite Hy53. simpl Zdigits2. unfold fexp, emin.
        change (Z.pos (digits2_pos (2 ^ 53)%positive)) with 54. lia. }
    simpl SpecFloat.iter_pos. rewrite Hy53. simpl shr_m.
    replace (E + Z.pos k + 1 <=? 1024 - 53) with true by (symmetry; apply Z.leb_le; lia).
    eexists _, _. split; [reflexivity|]. split; [simpl; lia|].
    right. split; [reflexivity|]. split; [reflexivity|]. fold x. lia.
  - assert (Hyb : 2 ^ 52 <= y < 2 ^ 53) by lia.
    destruct y as [|yp|yp] eqn:Hyp; [lia| |lia].
    assert (Hdy : Z.pos (digits2_pos yp) = 53) by (apply digits2_pos_unique; exact Hyb).
    rewrite (shr_fexp_keep (Z.pos yp) (E + Z.pos k) loc_Exact).
    2:{ simpl Zdigits2. rewrite Hdy. unfold fexp, emin. lia. }
    simpl shr_m.
    replace (E + Z.pos k <=? 1024 - 53) with true by (symmetry; apply Z.leb_le; lia).
    eexists _, _. split; [reflexivity|]. split; [exact Hyb|].
    left. split; [reflexivity|]. fold x. lia.
Qed.

Lemma binary_normalize_normal (M E : Z) (k : positive) :
  2 ^ (52 + Z.pos k) <= M < 2 ^ (53 + Z.pos k) ->
  -1074 <= E + Z.pos k -> E + Z.pos k + 1 <= 971 ->
  exists m' e',
    binary_normalize 53 1024 M E false = S754_finite false m' e'
    /\ 2 ^ 52 <= Z.pos m' < 2 ^ 53
    /\ ((e' = E + Z.pos k
         /\ M / 2 ^ Z.pos k <= Z.pos m' <= M / 2 ^ Z.pos k + 1)
        \/ (e' = E + Z.pos k + 1 /\ Z.pos m' = 2 ^ 52
            /\ M / 2 ^ Z.pos k = 2 ^ 53 - 1)).
Proof.
  intros HM Hlo Hhi.
  assert (0 < 2 ^ (52 + Z.pos k)) by (apply Z.pow_pos_nonneg; lia).
  destruct M as [|M|M]; [lia| |lia].
  assert (Hd : Z.pos (digits2_pos M) = 53 + Z.pos k).
  { apply digits2_pos_unique.
    replace (53 + Z.pos k - 1) with (52 + Z.pos k) by lia. exact HM. }
  unfold binary_normalize, binary_round, shl_align.
  replace (fexp 53 1024 (Z.pos (digits2_pos M) + E) - E) with (Z.pos k)
    by (rewrite Hd; unfold fexp, emin; lia).
  apply binary_round_aux_normal; assumption.
Qed.

Lemma valid_normal (s : bool) (m : positive) (e : Z) :
  2 ^ 52 <= Z.pos m < 2 ^ 53 -> -1074 <= e <= 971 ->
  valid_binary 53 1024 (S754_finite s m e) = true.
Proof.
  intros Hm He. simpl. unfold bounded, canonical_mantissa.
  rewrite (digits2_pos_unique m 53) by exact Hm.
  apply andb_true_intro. split.
  - apply Z.eqb_eq. unfold fexp, emin. lia.
  - apply Z.leb_le. lia.
Qed.


Lemma compare_cont_Eq (a b : positive) : Pos.compare_cont Eq a b = (Z.pos a ?= Z.pos b).
Proof. reflexivity. Qed.

Lemma leb_f03_intro (m : positive) (e : Z) :
  (e = -54 /\ Z.pos m03 <= Z.pos m) \/ -54 < e ->
  SFleb f03 (S754_finite false m e) = true.
Proof.
  intros Hc. unfold SFleb, f03, SFcompare.
  destruct (Z.compare_spec (-54) e) as [He|He|He].
  - rewrite compare_cont_Eq.
    destruct (Z.compare_spec (Z.pos m03) (Z.pos m)); try reflexivity. lia.
  - reflexivity.
  - lia.
Qed.

Lemma leb_f08_intro (m : positive) (e : Z) :
  (e = -53 /\ Z.pos m <= Z.pos m08) \/ e < -53 ->
  SFleb (S754_finite false m e) f08 = true.
Proof.
  intros Hc. unfold SFleb, f08, SFcompare.
  destruct (Z.compare_spec e (-53)) as [He|He|He].
  - rewrite compare_cont_Eq.
    destruct (Z.compare_spec (Z.pos m) (Z.pos m08)); try reflexivity. lia.
  - reflexivity.
  - lia.
Qed.

(** A valid double between 0.3 and 0.8 has exponent -54 or -53 and a full
    53-bit mantissa. *)
Lemma in_range_inv (a : spec_float) :
  valid_binary 53 1024 a = true -> SFleb f03 a = true -> SFleb a f08 = true ->
  exists m e, a = S754_finite false m e
    /\ 2 ^ 52 <= Z.pos m < 2 ^ 53
    /\ ((e = -54 /\ Z.pos m03 <= Z.pos m) \/ (e = -53 /\ Z.pos m <= Z.pos m08)).
Proof.
  intros Hv Hlo Hhi.
  destruct a as [s|s| |s m e]; try discriminate.
  - destruct s; discriminate.
  - destruct s; [discriminate|].
    exists m, e. split; [reflexivity|].
    unfold SFleb, f03, f08, SFcompare in Hlo, Hhi.
    rewrite !compare_cont_Eq in *.
    assert (He : (e = -54 /\ Z.pos m03 <= Z.pos m) \/ (e = -53 /\ Z.pos m <= Z.pos m08)).
    { destruct (Z.compare_spec (-54) e) as [He1|He1|He1]; [ | |discriminate].
      - left. split; [lia|].
        destruct (Z.compare_spec (Z.pos m03) (Z.pos m)); try discriminate; lia.
      - destruct (Z.compare_spec e (-53)) as [He2|He2|He2]; [ |lia|discriminate].
        right. split; [lia|].
        destruct (Z.compare_spec (Z.pos m) (Z.pos m08)); try discriminate; lia. }
    split; [|exact He].
    simpl in Hv. unfold bounded, canonical_mantissa in Hv.
    apply andb_true_iff in Hv. destruct Hv as [Hc _]. apply Z.eqb_eq in Hc.
    pose proof (digits2_pos_bounds m) as Hb.
    assert (Hd : Z.pos (digits2_pos m) = 53) by (unfold fexp, emin in Hc; lia).
    rewrite Hd in Hb. exact Hb.
Qed.

Lemma SFadd_f001_54 (m : positive) :
  SFadd 53 1024 (S754_finite false m (-54)) f001 =
  binary_normalize 53 1024 (32 * Z.pos m + Z.pos c01) (-59) false.
Proof. reflexivity. Qed.

Lemma SFadd_f001_53 (m : positive) :
  SFadd 53 1024 (S754_finite false m (-53)) f001 =
  binary_normalize 53 1024 (64 * Z.pos m + Z.pos c01) (-59) false.
Proof. reflexivity. Qed.

Lemma SFsub_f0005_54 (m : positive) :
  SFsub 53 1024 (S754_finite false m (-54)) f0005 =
  binary_normalize 53 1024 (64 * Z.pos m - Z.pos c01) (-60) false.
Proof. reflexivity. Qed.

Lemma SFsub_f0005_53 (m : positive) :
  SFsub 53 1024 (S754_finite false m (-53)) f0005 =
  binary_normalize 53 1024 (128 * Z.pos m - Z.pos c01) (-60) false.
Proof. reflexivity. Qed.

Lemma iter_xO_value (p k : positive) :
  Z.pos (Pos.iter xO p k) = Z.pos p * 2 ^ Z.pos k.
Proof.
  revert p. induction k as [k IH|k IH|]; intros p; simpl Pos.iter.
  - rewrite Pos2Z.inj_xO, IH, IH.
    replace (Z.pos k~1) with (1 + Z.pos k + Z.pos k) by lia.
    rewrite !Z.pow_add_r by lia. lia.
  - rewrite IH, IH.
    replace (Z.pos k~0) with (Z.pos k + Z.pos k) by lia.
    rewrite !Z.pow_add_r by lia. lia.
  - lia.
Qed.

(** A 53-bit mantissa in the normal range is its own rounding. *)
Lemma binary_round_aux_exact (m : positive) (e : Z) :
  2 ^ 52 <= Z.pos m < 2 ^ 53 -> -1074 <= e <= 971 ->
  binary_round_aux 53 1024 false (Z.pos m) e loc_Exact = S754_finite false m e.
Proof.
  intros Hm He.
  assert (Hd : Z.pos (digits2_pos m) = 53) by (apply digits2_pos_unique; exact Hm).
  unfold binary_round_aux.
  rewrite (shr_fexp_keep (Z.pos m) e loc_Exact)
    by (simpl Zdigits2; rewrite Hd; unfold fexp, emin; lia).
  simpl shr_m. simpl loc_of_shr_record. simpl round_nearest_even.
  rewrite (shr_fexp_keep (Z.pos m) e loc_Exact)
    by (simpl Zdigits2; rewrite Hd; unfold fexp, emin; lia).
  simpl shr_m.
  replace (e <=? 1024 - 53) with true by (symmetry; apply Z.leb_le; lia).
  reflexivity.
Qed.

(** An integer below [2^53] converts to a double exactly. *)
Lemma of_Z_small (z : Z) :
  0 < z < 2 ^ 53 ->
  exists m e, Float64.of_Z z = S754_finite false m e
    /\ 2 ^ 52 <= Z.pos m < 2 ^ 53 /\ -52 <= e <= 0.
Proof.
  intros Hz. destruct z as [|p|p]; [lia| |lia].
  pose proof (digits2_pos_bounds p) as Hb.
  set (d := Z.pos (digits2_pos p)) in *.
  assert (Hd : 1 <= d <= 53).
  { split; [unfold d; lia|].
    destruct (Z.le_gt_cases d 53) as [|Hgt]; [assumption|exfalso].
    assert (2 ^ 53 <= 2 ^ (d - 1)) by (apply Z.pow_le_mono_r; lia). lia. }
  unfold Float64.of_Z, binary_normalize, binary_round, shl_align.
  fold d. replace (fexp Float64.prec Float64.emax (d + 0)) with (d - 53)
    by (unfold fexp, emin, Float64.prec, Float64.emax; lia).
  rewrite Z.sub_0_r.
  destruct (d - 53) as [|k|k] eqn:Hk; [ |lia| ].
  - exists p, 0. rewrite binary_round_aux_exact; [ | | lia].
    + split; [reflexivity|]. split; [|lia]. replace 52 with (d - 1) by lia.
      replace 53 with d by lia. exact Hb.
    + replace 52 with (d - 1) by lia. replace 53 with d by lia. exact Hb.
  - assert (Hv : 2 ^ 52 <= Z.pos (Pos.iter xO p k) < 2 ^ 53).
    { rewrite iter_xO_value.
      replace 52 with ((d - 1) + Z.pos k) by lia.
      replace 53 with (d + Z.pos k) by lia.
      rewrite !Z.pow_add_r by lia.
      assert (0 < 2 ^ Z.pos k) by (apply Z.pow_pos_nonneg; lia). nia. }
    exists (Pos.iter xO p k), (Z.neg k).
    unfold Float64.prec, Float64.emax. rewrite binary_round_aux_exact; [ | exact Hv | lia].
    split; [reflexivity|]. split; [exact Hv|lia].
Qed.

(** The product of two positive normal doubles of moderate exponent is a
    finite double. *)
Lemma mul_finite (m1 m2 : positive) (e1 e2 : Z) :
  2 ^ 52 <= Z.pos m1 < 2 ^ 53 -> 2 ^ 52 <= Z.pos m2 < 2 ^ 53 ->
  -1126 <= e1 + e2 <= 917 ->
  exists m e,
    Float64.mul (S754_finite false m1 e1) (S754_finite false m2 e2) =
    S754_finite false m e.
Proof.
  intros H1 H2 He. unfold Float64.mul, SFmul. simpl xorb.
  change (Z.pos (m1 * m2)) with (Z.pos m1 * Z.pos m2).
  assert (Hp : 2 ^ 104 <= Z.pos m1 * Z.pos m2 < 2 ^ 106).
  { change (2 ^ 104) with (2 ^ 52 * 2 ^ 52). change (2 ^ 106) with (2 ^ 53 * 2 ^ 53).
    split; [apply Z.mul_le_mono_nonneg; lia | apply Z.mul_lt_mono_nonneg; lia]. }
  change (Z.pos m1 * Z.pos m2) with (Z.pos (m1 * m2)) in *.
  destruct (Z.lt_ge_cases (Z.pos (m1 * m2)) (2 ^ 105)) as [Hlt|Hge].
  - destruct (binary_round_aux_normal (m1 * m2) (e1 + e2) 52)
      as (m & e & Hr & _); [ | lia | lia | ].
    + apply digits2_pos_unique. change (53 + 52 - 1) with 104.
      change (53 + 52) with 105. lia.
    + exists m, e. exact Hr.
  - destruct (binary_round_aux_normal (m1 * m2) (e1 + e2) 53)
      as (m & e & Hr & _); [ | lia | lia | ].
    + apply digits2_pos_unique. change (53 + 53 - 1) with 105.
      change (53 + 53) with 106. lia.
    + exists m, e. exact Hr.
Qed.

(** closes the side conditions on concrete powers of two *)
Ltac pow2 := change (2 ^ 52) with 4503599627370496 in *;
             change (2 ^ 53) with 9007199254740992 in *;
             unfold m03, m08, c01 in *; lia.

Lemma add_f001_in_range (a : spec_float) :
  valid_binary 53 1024 a = true -> SFleb f03 a = true -> SFleb a f08 = true ->
  valid_binary 53 1024 (SFadd 53 1024 a f001) = true
  /\ SFleb f03 (SFadd 53 1024 a f001) = true.
Proof.
  intros Hv Hlo Hhi.
  destruct (in_range_inv a Hv Hlo Hhi) as (m & e & -> & Hm & [[-> Hb]|[-> Hb]]).
  - rewrite SFadd_f001_54.
    destruct (Z.lt_ge_cases (32 * Z.pos m + Z.pos c01) (2 ^ 58)) as [Hlt|Hge].
    + destruct (binary_normalize_normal (32 * Z.pos m + Z.pos c01) (-59) 5)
        as (m' & e' & -> & Hm' & Hcase); [ | lia | lia | ].
      { change (2 ^ (52 + 5)) with 144115188075855872.
        change (2 ^ (53 + 5)) with (2 ^ 58). pow2. }
      assert (Hdiv : Z.pos m <= (32 * Z.pos m + Z.pos c01) / 2 ^ 5)
        by (apply Z.div_le_lower_bound; [lia | change (2 ^ 5) with 32; lia]).
      split.
      * apply valid_normal; [exact Hm' | lia].
      * apply leb_f03_intro. destruct Hcase as [[-> Hr]|[-> _]]; [left|right]; lia.
    + destruct (binary_normalize_normal (32 * Z.pos m + Z.pos c01) (-59) 6)
        as (m' & e' & -> & Hm' & Hcase); [ | lia | lia | ].
      { change (2 ^ (52 + 6)) with (2 ^ 58).
        change (2 ^ (53 + 6)) with 576460752303423488. split; [lia|pow2]. }
      split.
      * apply valid_normal; [exact Hm' | lia].
      * apply leb_f03_intro. right. lia.
  - rewrite SFadd_f001_53.
    destruct (binary_normalize_normal (64 * Z.pos m + Z.pos c01) (-59) 6)
      as (m' & e' & -> & Hm' & Hcase); [ | lia | lia | ].
    { change (2 ^ (52 + 6)) with 288230376151711744.
      change (2 ^ (53 + 6)) with 576460752303423488. pow2. }
    split.
    + apply valid_normal; [exact Hm' | lia].
    + apply leb_f03_intro. right. lia.
Qed.

Lemma sub_f0005_in_range (a : spec_float) :
  valid_binary 53 1024 a = true -> SFleb f03 a = true -> SFleb a f08 = true ->
  valid_binary 53 1024 (SFsub 53 1024 a f0005) = true
  /\ SFleb (SFsub 53 1024 a f0005) f08 = true.
Proof.
  intros Hv Hlo Hhi.
  destruct (in_range_inv a Hv Hlo Hhi) as (m & e & -> & Hm & [[-> Hb]|[-> Hb]]).
  - rewrite SFsub_f0005_54.
    destruct (binary_normalize_normal (64 * Z.pos m - Z.pos c01) (-60) 6)
      as (m' & e' & -> & Hm' & Hcase); [ | lia | lia | ].
    { change (2 ^ (52 + 6)) with 288230376151711744.
      change (2 ^ (53 + 6)) with 576460752303423488. pow2. }
    split.
    + apply valid_normal; [exact Hm' | lia].
    + apply leb_f08_intro. destruct Hcase as [[-> _]|[-> [Hm52 _]]]; [right; lia|left].
      split; [lia|]. rewrite Hm52. pow2.
  - rewrite SFsub_f0005_53.
    destruct (Z.lt_ge_cases (128 * Z.pos m - Z.pos c01) (2 ^ 59)) as [Hlt|Hge].
    + destruct (binary_normalize_normal (128 * Z.pos m - Z.pos c01) (-60) 6)
        as (m' & e' & -> & Hm' & Hcase); [ | lia | lia | ].
      { change (2 ^ (52 + 6)) with 288230376151711744.
        change (2 ^ (53 + 6)) with (2 ^ 59). split; [pow2|lia]. }
      split.
      * apply valid_normal; [exact Hm' | lia].
      * apply leb_f08_intro. destruct Hcase as [[-> _]|[-> [Hm52 _]]]; [right; lia|left].
        split; [lia|]. rewrite Hm52. pow2.
    + destruct (binary_normalize_normal (128 * Z.pos m - Z.pos c01) (-60) 7)
        as (m' & e' & -> & Hm' & Hcase); [ | lia | lia | ].
      { change (2 ^ (52 + 7)) with (2 ^ 59).
        change (2 ^ (53 + 7)) with 1152921504606846976. split; [lia|pow2]. }
      assert (Hdiv : (128 * Z.pos m - Z.pos c01) / 2 ^ 7 < Z.pos m)
        by (apply Z.div_lt_upper_bound; [lia | change (2 ^ 7) with 128; pow2]).
      split.
      * apply valid_normal; [exact Hm' | lia].
      * apply leb_f08_intro.
        destruct Hcase as [[-> Hr]|[_ [_ Hx]]]; [left; split; lia|pow2].
Qed.

(** ** Generic lemmas on computations *)

#[global] Instance same_but_flag_refl : Reflexive same_but_flag.
Proof. intros s. unfold same_but_flag. tauto. Qed.
#[global] Instance same_but_flag_trans : Transitive same_but_flag.
Proof. intros s1 s2 s3. unfold same_but_flag. intuition congruence. Qed.
#[global] Instance same_but_stats_refl : Reflexive same_but_stats.
Proof. intros s. unfold same_but_stats. tauto. Qed.
#[global] Instance same_but_stats_trans : Transitive same_but_stats.
Proof. intros s1 s2 s3. unfold same_but_stats. intuition congruence. Qed.

Section Computations.
Context {A B : Type}.

Lemma bind_run (m : Bot A) (k : A -> Bot B) (s : NATHANBot) :
  (m ≫= k) s =
  match m s with
  | (Ok a, s') => k a s'
  | (Raise e, s') => (Raise e, s')
  end.
Proof. reflexivity. Qed.

Section Frame.
Context (R : relation NATHANBot) `{!Reflexive R} `{!Transitive R}.

Lemma changes_only_ret (a : A) : changes_only R (mret a).
Proof. intros s. simpl. reflexivity. Qed.

Lemma changes_only_get (f : NATHANBot -> A) : changes_only R (self_get f).
Proof. intros s. simpl. reflexivity. Qed.

Lemma changes_only_lift (r : result A) : changes_only R (lift r).
Proof. intros s. simpl. reflexivity. Qed.

Lemma changes_only_set (upd : NATHANBot -> NATHANBot) :
  (forall s, R s (upd s)) -> changes_only R (self_set upd).
Proof. intros Hupd s. simpl. apply Hupd. Qed.

Lemma changes_only_bind (m : Bot A) (k : A -> Bot B) :
  changes_only R m -> (forall a, changes_only R (k a)) ->
  changes_only R (m ≫= k).
Proof.
  intros Hm Hk s. rewrite bind_run. specialize (Hm s).
  destruct (m s) as [[a|e] s1]; simpl in *.
  - etransitivity; [exact Hm | apply Hk].
  - exact Hm.
Qed.
End Frame.

Lemma returns_only_ret (Q : A -> Prop) (a : A) : Q a -> returns_only Q (mret a).
Proof. intros HQ s a' s' Heq. inversion Heq; subst. exact HQ. Qed.

Lemma returns_only_bind (P : A -> Prop) (Q : B -> Prop) (m : Bot A) (k : A -> Bot B) :
  returns_only P m -> (forall a, P a -> returns_only Q (k a)) ->
  returns_only Q (m ≫= k).
Proof.
  intros Hm Hk s b s' Heq. rewrite bind_run in Heq.
  destruct (m s) as [[a|e] s1] eqn:Hms; [|discriminate].
  eapply Hk; [eapply Hm; exact Hms | exact Heq].
Qed.

Lemma returns_only_any (m : Bot A) : returns_only (fun _ => True) m.
Proof. intros s a s' _. exact I. Qed.
End Computations.

Lemma changes_only_try_pass (R : relation NATHANBot) (body : Bot unit) :
  changes_only R body -> changes_only R (try_pass body).
Proof.
  intros Hb s. unfold try_pass. specialize (Hb s).
  destruct (body s) as [[u|e] s1]; exact Hb.
Qed.

Lemma changes_only_for_each {A : Type} (R : relation NATHANBot)
    `{!Reflexive R} `{!Transitive R} (l : list A) (body : A -> Bot unit) :
  (forall x, changes_only R (body x)) -> changes_only R (for_each l body).
Proof.
  intros Hb. induction l as [|x l IH]; simpl.
  - apply changes_only_ret; assumption.
  - apply changes_only_bind; [assumption | apply Hb | intros _; exact IH].
Qed.

(** one step through a computation, for frame goals *)
Ltac frame_step :=
  lazymatch goal with
  | |- changes_only _ (mret _) => apply changes_only_ret; try exact _
  | |- changes_only _ (self_get _) => apply changes_only_get; try exact _
  | |- changes_only _ (lift _) => apply changes_only_lift; try exact _
  | |- changes_only _ (self_set _) =>
      apply changes_only_set; intros ?; hnf; simpl; tauto
  | |- changes_only _ (_ ≫= _) => apply changes_only_bind; [try exact _ | | intros ?]
  | |- changes_only _ (if ?b then _ else _) => destruct b
  | |- changes_only _ (match ?x with _ => _ end) => destruct x
  end.

(** one step through a computation, for goals on the returned value *)
Ltac returns_step :=
  lazymatch goal with
  | |- returns_only _ (mret _) => apply returns_only_ret
  | |- returns_only _ (_ ≫= _) =>
      eapply returns_only_bind; [apply returns_only_any | intros ? _]
  | |- returns_only _ (if ?b then _ else _) => destruct b eqn:?
  | |- returns_only _ (match ?x with _ => _ end) => destruct x eqn:?
  end.

Lemma action_in_spec (a : PlayerAction) (l : list PlayerAction) :
  action_in a l = true <-> a ∈ l.
Proof. unfold action_in. apply bool_decide_eq_true. Qed.

Lemma fallback_legal_or_fold (legal_actions : list PlayerAction) :
  legal_or_fold legal_actions (fallback_check_call_fold legal_actions).
Proof.
  unfold fallback_check_call_fold, legal_or_fold.
  destruct (action_in CHECK legal_actions) eqn:Hcheck; simpl.
  - left. apply action_in_spec, Hcheck.
  - destruct (action_in CALL legal_actions) eqn:Hcall; simpl.
    + left. apply action_in_spec, Hcall.
    + right. reflexivity.
Qed.

Section PolicyFacts.
Context `{EngineAPI}.

(** *** The private methods only read the instance *)

Lemma _should_bluff_or_value_read_only (pot rank_value : Z) :
  changes_only eq (_should_bluff_or_value pot rank_value).
Proof. unfold _should_bluff_or_value. repeat frame_step. Qed.

Lemma _preflop_read_only game_state hole_cards legal_actions min_bet max_bet :
  changes_only eq (_preflop game_state hole_cards legal_actions min_bet max_bet).
Proof. unfold _preflop. repeat frame_step. Qed.

Lemma _postflop_read_only game_state hole_cards legal_actions min_bet max_bet :
  changes_only eq (_postflop game_state hole_cards legal_actions min_bet max_bet).
Proof.
  unfold _postflop. cbv zeta.
  repeat first [apply _should_bluff_or_value_read_only | frame_step].
Qed.

End PolicyFacts.

Lemma changes_only_weaken {A : Type} (R R' : relation NATHANBot) (m : Bot A) :
  (forall s s', R s s' -> R' s s') -> changes_only R m -> changes_only R' m.
Proof. intros Hsub Hm s. apply Hsub, Hm. Qed.

(** closes the leaves of a legality proof: a guarded action, or the default *)
Ltac legal_leaf :=
  first
    [ apply fallback_legal_or_fold
    | right; reflexivity
    | left; simpl; apply action_in_spec;
      repeat match goal with
             | Hb : _ && _ = true |- _ => apply andb_true_iff in Hb; destruct Hb
             end;
      first [assumption | discriminate] ].

Section Decisions.
Context `{EngineAPI}.

Lemma _preflop_legal_or_fold game_state hole_cards legal_actions min_bet max_bet :
  returns_only (legal_or_fold legal_actions)
               (_preflop game_state hole_cards legal_actions min_bet max_bet).
Proof. unfold _preflop. cbv zeta. repeat returns_step; legal_leaf. Qed.

Lemma _postflop_legal_or_fold game_state hole_cards legal_actions min_bet max_bet :
  returns_only (legal_or_fold legal_actions)
               (_postflop game_state hole_cards legal_actions min_bet max_bet).
Proof. unfold _postflop. cbv zeta. repeat returns_step; legal_leaf. Qed.

(** What one call does to [last_raised_preflop]: the preflop branch
    overwrites it once [_preflop] has returned; every other path leaves
    it as it was. *)
Lemma get_action_flag game_state hole_cards legal_actions min_bet max_bet s :
  last_raised_preflop
    (get_action game_state hole_cards legal_actions min_bet max_bet s).2 =
  match (get_action game_state hole_cards legal_actions min_bet max_bet s).1 with
  | Ok action =>
      if preflop_branch game_state legal_actions
      then bool_decide (action.1 = RAISE)
      else last_raised_preflop s
  | Raise _ => last_raised_preflop s
  end.
Proof.
  unfold get_action, preflop_branch.
  destruct legal_actions as [|a0 legal']; [reflexivity|].
  destruct (String.eqb _ _).
  - rewrite bind_run.
    pose proof (_preflop_read_only game_state hole_cards (a0 :: legal')
                                    min_bet max_bet s) as Hro.
    destruct (_preflop _ _ _ _ _ s) as [[action|e] s1]; simpl in Hro; subst s1.
    + destruct (bool_decide (action.1 = RAISE)) eqn:Hraise; simpl;
        rewrite Hraise; reflexivity.
    + reflexivity.
  - pose proof (_postflop_read_only game_state hole_cards (a0 :: legal')
                                     min_bet max_bet s) as Hro.
    destruct (_postflop _ _ _ _ _ s) as [[action|e] s1]; simpl in *; subst s1;
      reflexivity.
Qed.

(** ** C6 *)

(** C6: with an empty [legal_actions], [get_action] returns exactly
    [(FOLD, 0)], whatever the state, the hole cards and the bet bounds;
    the instance is left as it was. *)
Theorem get_action_no_legal_actions game_state hole_cards min_bet max_bet s :
  get_action game_state hole_cards [] min_bet max_bet s = (Ok (FOLD, 0), s).
Proof. reflexivity. Qed.

(** ** C10 *)

(** C10: a call to [get_action] changes no attribute of the instance other
    than [last_raised_preflop]: the name, [aggression], [hands_played],
    [hands_won], [opponent_stats] and both confidence thresholds are the
    same after the call as before, on every input and also when the call
    raises. *)
Theorem get_action_frame game_state hole_cards legal_actions min_bet max_bet s :
  same_but_flag s (get_action game_state hole_cards legal_actions min_bet max_bet s).2.
Proof.
  revert s. change (changes_only same_but_flag
    (get_action game_state hole_cards legal_actions min_bet max_bet)).
  assert (Heq : forall s s', s = s' -> same_but_flag s s')
    by (intros s s' ->; reflexivity).
  unfold get_action. destruct legal_actions as [|a0 legal'].
  - apply changes_only_ret; exact _.
  - destruct (String.eqb _ _).
    + apply changes_only_bind; [exact _ | | intros action].
      * eapply changes_only_weaken; [exact Heq | apply _preflop_read_only].
      * apply changes_only_bind; [exact _ | | intros _; apply changes_only_ret; exact _].
        destruct (bool_decide _); apply changes_only_set; intros s;
          unfold same_but_flag; simpl; tauto.
    + eapply changes_only_weaken; [exact Heq | apply _postflop_read_only].
Qed.

(** ** C1 *)

(** C1 (amended): whenever [get_action], called with a non-empty
    [legal_actions], returns a pair, its action is a member of
    [legal_actions] or is [FOLD]; the fold default is returned without a
    membership test. *)
Theorem get_action_legal_or_fold game_state hole_cards legal_actions min_bet max_bet
    s action s' :
  legal_actions <> [] ->
  get_action game_state hole_cards legal_actions min_bet max_bet s = (Ok action, s') ->
  action.1 ∈ legal_actions \/ action.1 = FOLD.
Proof.
  intros _. revert s action s'.
  change (returns_only (legal_or_fold legal_actions)
            (get_action game_state hole_cards legal_actions min_bet max_bet)).
  unfold get_action. destruct legal_actions as [|a0 legal'].
  - apply returns_only_ret. right. reflexivity.
  - destruct (String.eqb _ _).
    + eapply returns_only_bind; [apply _preflop_legal_or_fold|].
      intros action Haction.
      eapply returns_only_bind; [apply returns_only_any|].
      intros _ _. apply returns_only_ret. exact Haction.
    + apply _postflop_legal_or_fold.
Qed.

(** ** C9 *)

(** C9 (amended): after any sequence of [get_action] calls,
    [last_raised_preflop] tells whether the latest call that took the
    preflop branch (round "preflop", legal actions present) and returned,
    returned a raise; postflop calls, calls without legal actions and
    calls that raise leave the flag as it was. *)
Theorem last_raised_preflop_after_run (cs : list Call) (s : NATHANBot) :
  last_raised_preflop (run cs s).2 =
  last_recorded_raise (last_raised_preflop s) (run cs s).1.
Proof.
  revert s. induction cs as [|c cs IH]; intros s; [reflexivity|].
  simpl. pose proof (get_action_flag (call_state c) (call_hole c) (call_legal c)
                       (call_min c) (call_max c) s) as Hflag.
  unfold decide_call. revert Hflag.
  destruct (get_action _ _ _ _ _ s) as [r s1]. simpl. intros Hflag.
  specialize (IH s1). destruct (run cs s1) as [log s2]. simpl in *.
  rewrite IH, Hflag. reflexivity.
Qed.

End Decisions.

(** * The lifecycle hooks *)

Lemma self_get_run {A : Type} (f : NATHANBot -> A) (s : NATHANBot) :
  self_get f s = (Ok (f s), s).
Proof. reflexivity. Qed.

Lemma self_set_run (upd : NATHANBot -> NATHANBot) (s : NATHANBot) :
  self_set upd s = (Ok tt, upd s).
Proof. reflexivity. Qed.

Lemma try_pass_ok (body : Bot unit) (s : NATHANBot) : (try_pass body s).1 = Ok tt.
Proof. unfold try_pass. destruct (body s) as [[[]|e] s1]; reflexivity. Qed.

(** runs the reads and writes at the head of a computation *)
Ltac run_head :=
  repeat (rewrite bind_run; rewrite ?self_get_run, ?self_set_run; cbv beta iota).

Section Lifecycle.
Context `{EngineAPI}.

Lemma update_opponent_frame game_state hand_result entry :
  changes_only same_but_stats (update_opponent game_state hand_result entry).
Proof. unfold update_opponent. repeat frame_step. Qed.

Lemma opponent_loop_frame game_state hand_result :
  changes_only same_but_stats
    (try_pass (for_each (map_to_list (player_bets game_state))
                        (update_opponent game_state hand_result))).
Proof.
  apply changes_only_try_pass, changes_only_for_each; try exact _.
  intros entry. apply update_opponent_frame.
Qed.

(** What [hand_complete] does to the counters and to [aggression]. *)
Lemma hand_complete_effect game_state hand_result s :
  exists s',
    hand_complete game_state hand_result s = (Ok tt, s')
    /\ hands_played s' = hands_played s + 1
    /\ hands_won s' =
       (if is_winner hand_result s then hands_won s + 1 else hands_won s)
    /\ aggression s' =
       (if is_winner hand_result s
        then Float64.py_min (Float64.dec 8 10)
                            (Float64.add (aggression s) (Float64.dec 1 100))
        else Float64.py_max (Float64.dec 3 10)
                            (Float64.sub (aggression s) (Float64.dec 5 1000))).
Proof.
  pose proof (opponent_loop_frame game_state hand_result) as Hloop.
  unfold hand_complete, is_winner. run_head.
  change (name (set_hands_played (hands_played s + 1) s)) with (name s).
  destruct (winners hand_result) as [ws|];
    [destruct (bool_decide (name s ∈ ws))|]; run_head.
  all: match goal with
       | |- context [try_pass ?body ?s2] =>
           specialize (Hloop s2); pose proof (try_pass_ok body s2) as Hok;
           destruct (try_pass body s2) as [r s3]; simpl in Hok, Hloop; subst r;
           destruct Hloop as (_ & Hp & Hw & Ha & _)
       end.
  all: exists s3; rewrite Hp, Hw, Ha; simpl; auto.
Qed.

(** What [tournament_start] does to [aggression]. *)
Lemma tournament_start_aggression players starting_chips s :
  aggression (tournament_start players starting_chips s).2 =
  if (length players <=? 4)%nat then Float64.dec 65 100
  else if (8 <=? length players)%nat then Float64.dec 45 100
  else Float64.dec 55 100.
Proof.
  unfold tournament_start. run_head.
  destruct (length players <=? 4)%nat; [reflexivity|].
  destruct (8 <=? length players)%nat; reflexivity.
Qed.

End Lifecycle.

(** * The aggression interval *)

Lemma dec_3_10 : Float64.dec 3 10 = f03.
Proof. vm_compute. reflexivity. Qed.

Lemma dec_8_10 : Float64.dec 8 10 = f08.
Proof. vm_compute. reflexivity. Qed.

Lemma dec_1_100 : Float64.dec 1 100 = f001.
Proof. vm_compute. reflexivity. Qed.

Lemma dec_5_1000 : Float64.dec 5 1000 = f0005.
Proof. vm_compute. reflexivity. Qed.

Lemma ltb_leb (x y : float) : SFltb x y = true -> SFleb x y = true.
Proof.
  unfold SFltb, SFleb. destruct (SFcompare x y) as [[]|]; congruence.
Qed.

(** the update after a win keeps a double of [0.3, 0.8] in that interval *)
Lemma aggression_after_win (a : float) :
  Float64.valid a = true -> Float64.leb f03 a = true -> Float64.leb a f08 = true ->
  let a' := Float64.py_min f08 (Float64.add a f001) in
  Float64.valid a' = true /\ Float64.leb f03 a' = true /\ Float64.leb a' f08 = true.
Proof.
  intros Hv Hlo Hhi.
  destruct (add_f001_in_range a Hv Hlo Hhi) as [Hv' Hlo'].
  unfold Float64.py_min, Float64.ltb. fold (Float64.add a f001) in Hv', Hlo'.
  destruct (SFltb (Float64.add a f001) f08) eqn:Hlt; cbv zeta.
  - split; [exact Hv'|]. split; [exact Hlo'|]. apply ltb_leb, Hlt.
  - repeat split; vm_compute; reflexivity.
Qed.

(** the update after a loss keeps a double of [0.3, 0.8] in that interval *)
Lemma aggression_after_loss (a : float) :
  Float64.valid a = true -> Float64.leb f03 a = true -> Float64.leb a f08 = true ->
  let a' := Float64.py_max f03 (Float64.sub a f0005) in
  Float64.valid a' = true /\ Float64.leb f03 a' = true /\ Float64.leb a' f08 = true.
Proof.
  intros Hv Hlo Hhi.
  destruct (sub_f0005_in_range a Hv Hlo Hhi) as [Hv' Hhi'].
  unfold Float64.py_max, Float64.gtb, Float64.ltb.
  fold (Float64.sub a f0005) in Hv', Hhi'.
  destruct (SFltb f03 (Float64.sub a f0005)) eqn:Hlt; cbv zeta.
  - split; [exact Hv'|]. split; [apply ltb_leb, Hlt | exact Hhi'].
  - repeat split; vm_compute; reflexivity.
Qed.

Section LifecycleClaims.
Context `{EngineAPI}.

(** ** C8 *)

(** C8: [hand_complete] returns and adds one to [hands_played]; when the
    policy's own name is among the winners of [hand_result] it adds one to
    [hands_won] and sets [aggression] to [min(0.8, aggression + 0.01)];
    otherwise [hands_won] is unchanged and [aggression] becomes
    [max(0.3, aggression - 0.005)]. *)
Theorem hand_complete_counters game_state hand_result s :
  (hand_complete game_state hand_result s).1 = Ok tt
  /\ hands_played (hand_complete game_state hand_result s).2 = hands_played s + 1
  /\ (if is_winner hand_result s
      then hands_won (hand_complete game_state hand_result s).2 = hands_won s + 1
           /\ aggression (hand_complete game_state hand_result s).2 =
              Float64.py_min (Float64.dec 8 10)
                             (Float64.add (aggression s) (Float64.dec 1 100))
      else hands_won (hand_complete game_state hand_result s).2 = hands_won s
           /\ aggression (hand_complete game_state hand_result s).2 =
              Float64.py_max (Float64.dec 3 10)
                             (Float64.sub (aggression s) (Float64.dec 5 1000))).
Proof.
  destruct (hand_complete_effect game_state hand_result s)
    as (s' & -> & Hp & Hw & Ha).
  simpl. split; [reflexivity|]. split; [exact Hp|].
  destruct (is_winner hand_result s); split; assumption.
Qed.

(** ** C3 *)

(** C3: when [aggression] is a double in [0.3, 0.8], it is again one after
    [hand_complete], on a win as on a loss, and after [tournament_start],
    for any number of players. *)
Theorem aggression_stays_in_range game_state hand_result players starting_chips s :
  aggression_in_range s ->
  aggression_in_range (hand_complete game_state hand_result s).2
  /\ aggression_in_range (tournament_start players starting_chips s).2.
Proof.
  intros (Hv & Hlo & Hhi). rewrite dec_3_10 in Hlo. rewrite dec_8_10 in Hhi.
  split.
  - destruct (hand_complete_effect game_state hand_result s)
      as (s' & -> & _ & _ & Ha).
    unfold aggression_in_range. simpl. rewrite Ha.
    rewrite dec_3_10, dec_8_10, dec_1_100, dec_5_1000.
    destruct (is_winner hand_result s).
    + apply aggression_after_win; assumption.
    + apply aggression_after_loss; assumption.
  - unfold aggression_in_range. rewrite tournament_start_aggression.
    destruct (length players <=? 4)%nat;
      [|destruct (8 <=? length players)%nat];
      repeat split; vm_compute; reflexivity.
Qed.

End LifecycleClaims.

Lemma aggression_stays_in_range_witness :
  aggression_in_range Examples.seasoned
  /\ aggression_in_range
       (hand_complete Examples.flop_state
          (mkHandResult (Some ["NATHAN"%string])) Examples.seasoned).2
  /\ aggression_in_range
       (@tournament_start SampleEngine.engine
          ["NATHAN"; "villain"; "third"]%string 1000 Examples.seasoned).2.
Proof.
  assert (Hin : aggression_in_range Examples.seasoned)
    by (repeat split; vm_compute; reflexivity).
  split; [exact Hin|].
  apply (@aggression_stays_in_range SampleEngine.engine Examples.flop_state
           (mkHandResult (Some ["NATHAN"%string]))
           ["NATHAN"; "villain"; "third"]%string 1000 Examples.seasoned).
  exact Hin.
Defined.

(** * The preflop estimate *)

Lemma in_deck (c : Card) : In c deck.
Proof.
  destruct c as [r s]. unfold deck. apply in_flat_map. exists r. split.
  - destruct r; simpl; tauto.
  - apply in_map. destruct s; simpl; tauto.
Qed.

Lemma deck_strength_in_unit :
  forallb (fun c1 => forallb (strength_in_unit c1) deck) deck = true.
Proof. vm_compute. reflexivity. Qed.

(** ** C5 *)

(** C5: for every two hole cards, of any ranks and suits,
    [_evaluate_preflop_strength] returns a double between 0 and 1. *)
Theorem evaluate_preflop_strength_in_unit (c1 c2 : Card) :
  exists x, _evaluate_preflop_strength [c1; c2] = Ok x
    /\ Float64.leb (Float64.of_Z 0) x = true
    /\ Float64.leb x (Float64.of_Z 1) = true.
Proof.
  pose proof deck_strength_in_unit as Hall.
  rewrite forallb_forall in Hall. specialize (Hall c1 (in_deck c1)).
  rewrite forallb_forall in Hall. specialize (Hall c2 (in_deck c2)).
  unfold strength_in_unit in Hall.
  destruct (_evaluate_preflop_strength [c1; c2]) as [x|e]; [|discriminate].
  apply andb_true_iff in Hall. exists x. tauto.
Qed.

(** * The draw detector *)

Lemma count_pos_elem {A : Type} `{EqDecision A} (x : A) (l : list A) :
  0 < count x l -> x ∈ l.
Proof.
  unfold count. intros Hpos.
  destruct (filter (fun y => y = x) l) as [|y ys] eqn:Hf; [simpl in Hpos; lia|].
  assert (Hy : y ∈ filter (fun y => y = x) l) by (rewrite Hf; left).
  apply list_elem_of_filter in Hy. destruct Hy as [-> Hy]. exact Hy.
Qed.

Lemma rank_value_in_ranks (r : Rank) (all_cards : list Card) :
  r ∈ map rank all_cards ->
  Rank_value r ∈
    merge_sort Z.le (remove_dups (map (fun c => Rank_value (rank c)) all_cards)).
Proof.
  intros Hr. rewrite merge_sort_Permutation, elem_of_remove_dups.
  apply list_elem_of_In. apply list_elem_of_In in Hr.
  apply in_map_iff in Hr. destruct Hr as (c & <- & Hc).
  apply in_map_iff. exists c. split; [reflexivity | exact Hc].
Qed.

(** ** C7 *)

(** C7: [_has_strong_draw] is true when some suit occurs at least four
    times among the cards, and when the ranks of the cards include all of
    Ace, 2, 3, 4 or all of 2, 3, 4, 5, whatever the suits. *)
Theorem has_strong_draw_flush_or_wheel (all_cards : list Card) :
  four_to_a_suit all_cards
  \/ ranks_present [ACE; TWO; THREE; FOUR] all_cards
  \/ ranks_present [TWO; THREE; FOUR; FIVE] all_cards ->
  _has_strong_draw all_cards = true.
Proof.
  intros Hdraw. unfold _has_strong_draw. cbv zeta.
  destruct (existsb _ (remove_dups (map suit all_cards))) eqn:Hflush;
    [reflexivity|].
  match goal with |- (if ?window then _ else _) = _ => destruct window end;
    [reflexivity|].
  destruct Hdraw as [[s Hs]|[Hw|Hw]].
  - exfalso. apply not_true_iff_false in Hflush. apply Hflush.
    apply existsb_exists. exists s. split.
    + apply list_elem_of_In, elem_of_remove_dups, count_pos_elem. lia.
    + apply Z.leb_le. exact Hs.
  - assert (Hsub : issubset [14; 2; 3; 4]
             (merge_sort Z.le
                (remove_dups (map (fun c => Rank_value (rank c)) all_cards))) = true).
    { unfold issubset. simpl.
      rewrite !bool_decide_eq_true_2; [reflexivity| | | |].
      - apply (rank_value_in_ranks FOUR), Hw. set_solver.
      - apply (rank_value_in_ranks THREE), Hw. set_solver.
      - apply (rank_value_in_ranks TWO), Hw. set_solver.
      - apply (rank_value_in_ranks ACE), Hw. set_solver. }
    rewrite Hsub. reflexivity.
  - assert (Hsub : issubset [2; 3; 4; 5]
             (merge_sort Z.le
                (remove_dups (map (fun c => Rank_value (rank c)) all_cards))) = true).
    { unfold issubset. simpl.
      rewrite !bool_decide_eq_true_2; [reflexivity| | | |].
      - apply (rank_value_in_ranks FIVE), Hw. set_solver.
      - apply (rank_value_in_ranks FOUR), Hw. set_solver.
      - apply (rank_value_in_ranks THREE), Hw. set_solver.
      - apply (rank_value_in_ranks TWO), Hw. set_solver. }
    rewrite Hsub. rewrite orb_true_r. reflexivity.
Qed.

Lemma has_strong_draw_flush_or_wheel_witness :
  ranks_present [ACE; TWO; THREE; FOUR] Examples.wheel_cards
  /\ _has_strong_draw Examples.wheel_cards = true.
Proof.
  assert (Hw : ranks_present [ACE; TWO; THREE; FOUR] Examples.wheel_cards).
  { intros r Hr. apply list_elem_of_In. apply list_elem_of_In in Hr.
    simpl in *. tauto. }
  split; [exact Hw|].
  apply (has_strong_draw_flush_or_wheel Examples.wheel_cards).
  right. left. exact Hw.
Defined.

(** * Raise sizing *)

(** with an int factor the amount is always defined *)
Lemma choose_raise_amount_int_factor game_state min_bet max_bet k :
  exists r, _choose_raise_amount game_state min_bet max_bet (Int k) = Ok r.
Proof.
  unfold _choose_raise_amount. simpl.
  destruct (_ <? _); eexists; reflexivity.
Qed.

Lemma choose_raise_amount_float_factor game_state min_bet max_bet mx ex :
  0 <= pot game_state < 2 ^ 53 ->
  2 ^ 52 <= Z.pos mx < 2 ^ 53 -> -1074 <= ex <= 917 ->
  exists r, _choose_raise_amount game_state min_bet max_bet
              (Flt (S754_finite false mx ex)) = Ok r.
Proof.
  intros Hpot Hmx Hex. unfold _choose_raise_amount, num_mul, int_to_float.
  destruct (Z.eq_dec (pot game_state) 0) as [->|Hnz].
  - simpl. destruct (_ <? _); eexists; reflexivity.
  - destruct (of_Z_small (pot game_state)) as (m1 & e1 & -> & Hm1 & He1); [lia|].
    simpl Float64.is_infinite. cbv iota.
    destruct (mul_finite m1 mx e1 ex Hm1 Hmx) as (m & e & Hmul); [lia|].
    unfold mbind, result_bind. rewrite Hmul. cbn [num_int Float64.trunc].
    match goal with |- context [if ?c <? ?d then _ else _] => destruct (c <? d) end;
      eexists; reflexivity.
Qed.

Lemma choose_raise_amount_returns game_state min_bet max_bet factor :
  0 <= pot game_state < 2 ^ 53 -> factor ∈ policy_factors ->
  exists r, _choose_raise_amount game_state min_bet max_bet factor = Ok r.
Proof.
  intros Hpot Hf. apply list_elem_of_In in Hf. unfold policy_factors in Hf.
  cbn [In] in Hf. destruct Hf as [<-|[<-|[<-|[<-|[<-|Hf]]]]].
  - change (Float64.dec 25 10) with (S754_finite false 5629499534213120 (-51)).
    apply choose_raise_amount_float_factor; [exact Hpot| |lia].
    change (2 ^ 52) with 4503599627370496. change (2 ^ 53) with 9007199254740992. lia.
  - change (Float64.of_Z 2) with (S754_finite false 4503599627370496 (-51)).
    apply choose_raise_amount_float_factor; [exact Hpot| |lia].
    change (2 ^ 52) with 4503599627370496. change (2 ^ 53) with 9007199254740992. lia.
  - change (Float64.dec 15 10) with (S754_finite false 6755399441055744 (-52)).
    apply choose_raise_amount_float_factor; [exact Hpot| |lia].
    change (2 ^ 52) with 4503599627370496. change (2 ^ 53) with 9007199254740992. lia.
  - change (Float64.dec 6 10) with (S754_finite false 5404319552844595 (-53)).
    apply choose_raise_amount_float_factor; [exact Hpot| |lia].
    change (2 ^ 52) with 4503599627370496. change (2 ^ 53) with 9007199254740992. lia.
  - apply choose_raise_amount_int_factor.
  - destruct Hf.
Qed.

(** ** C4 *)

(** C4 (amended): for every pot and factor, in particular the non-negative
    ones, and every pair of integer bounds, the result of
    [_choose_raise_amount] is at least [min_bet]; it is at most [max_bet]
    when [min_bet <= max_bet], and it is [min_bet] itself when
    [min_bet > max_bet]. *)
Theorem choose_raise_amount_within_bounds game_state min_bet max_bet factor r :
  _choose_raise_amount game_state min_bet max_bet factor = Ok r ->
  min_bet <= r
  /\ (min_bet <= max_bet -> r <= max_bet)
  /\ (max_bet < min_bet -> r = min_bet).
Proof.
  unfold _choose_raise_amount, mbind, result_bind.
  destruct (num_mul _ _) as [product|e]; [|discriminate].
  destruct (num_int product) as [desired|e]; [|discriminate].
  destruct (Z.ltb_spec (Z.min (Z.max min_bet desired) max_bet) min_bet);
    intros [= <-]; lia.
Qed.

Lemma choose_raise_amount_within_bounds_witness :
  _choose_raise_amount Examples.preflop_state 20 1000 (Flt (Float64.of_Z 2)) = Ok 60
  /\ 20 <= 60
  /\ (20 <= 1000 -> 60 <= 1000)
  /\ (1000 < 20 -> 60 = 20).
Proof.
  assert (Hrun : _choose_raise_amount Examples.preflop_state 20 1000
                   (Flt (Float64.of_Z 2)) = Ok 60)
    by (vm_compute; reflexivity).
  split; [exact Hrun|].
  exact (choose_raise_amount_within_bounds Examples.preflop_state 20 1000
           (Flt (Float64.of_Z 2)) 60 Hrun).
Defined.

(** With pot 30, factor 2.0 and the bounds [min_bet = 10 > max_bet = 5] the
    result is 10, above [max_bet]. *)
Lemma choose_raise_amount_above_max_bet :
  0 <= pot Examples.preflop_state
  /\ Float64.leb (Float64.of_Z 0) (Float64.of_Z 2) = true
  /\ _choose_raise_amount Examples.preflop_state 10 5 (Flt (Float64.of_Z 2)) = Ok 10
  /\ ~ (10 <= 10 <= 5).
Proof.
  split; [vm_compute; discriminate|]. split; [vm_compute; reflexivity|].
  split; [vm_compute; reflexivity|]. lia.
Qed.

(** * Returning

    When the methods return rather than raise. *)

Section ReturnsAt.
Context {A B : Type}.

Lemma returns_at_ret (a : A) (s : NATHANBot) : returns_at (mret a) s.
Proof. exists a. reflexivity. Qed.

Lemma returns_at_get (f : NATHANBot -> A) (s : NATHANBot) : returns_at (self_get f) s.
Proof. exists (f s). reflexivity. Qed.

Lemma returns_at_lift (r : result A) (s : NATHANBot) :
  (exists a, r = Ok a) -> returns_at (lift r) s.
Proof. intros [a ->]. exists a. reflexivity. Qed.

Lemma returns_at_bind (m : Bot A) (k : A -> Bot B) (s : NATHANBot) :
  returns_at m s -> (forall a, returns_at (k a) s) -> returns_at (m ≫= k) s.
Proof.
  intros [a Hm] Hk. unfold returns_at. rewrite bind_run, Hm. apply Hk.
Qed.

Lemma returns_at_bind_get (f : NATHANBot -> A) (k : A -> Bot B) (s : NATHANBot) :
  returns_at (k (f s)) s -> returns_at (self_get f ≫= k) s.
Proof. intros Hk. unfold returns_at. rewrite bind_run. exact Hk. Qed.
End ReturnsAt.

Ltac returns_at_step :=
  lazymatch goal with
  | |- returns_at (mret _) _ => apply returns_at_ret
  | |- returns_at (self_get _) _ => apply returns_at_get
  | |- returns_at (lift _) _ => apply returns_at_lift
  | |- returns_at (self_get _ ≫= _) _ => apply returns_at_bind_get
  | |- returns_at (_ ≫= _) _ => apply returns_at_bind; [|intros ?]
  | |- returns_at (if ?b then _ else _) _ => destruct b eqn:?
  end.

(** the factor of a sizing call is one the policy passes *)
Ltac policy_factor :=
  unfold policy_factors;
  repeat match goal with |- context [if ?b then _ else _] => destruct b end;
  repeat first [apply list_elem_of_here | apply list_elem_of_further].

Lemma evaluate_preflop_strength_returns (hole_cards : list Card) :
  length hole_cards = 2%nat ->
  exists x, _evaluate_preflop_strength hole_cards = Ok x.
Proof.
  intros Hlen. destruct hole_cards as [|c1 [|c2 [|c3 rest]]]; try discriminate.
  unfold _evaluate_preflop_strength, float_truediv. cbv zeta.
  change (Float64.is_zero
            (Float64.mul (Float64.of_Z 2) (Float64.of_Z (Rank_value ACE))))
    with false.
  eexists. reflexivity.
Qed.

Section Returning.
Context `{EngineAPI}.

Lemma _should_bluff_or_value_returns (pot rank_value : Z) (s : NATHANBot) :
  returns_at (_should_bluff_or_value pot rank_value) s.
Proof.
  unfold _should_bluff_or_value. repeat returns_at_step.
  - unfold num_mul, int_to_float.
    change (Float64.is_infinite (Float64.of_Z 10)) with false.
    eexists. reflexivity.
  - unfold num_max. destruct (num_gtb _ _); [|eexists; reflexivity].
    match goal with |- context [num_mul _ ?x] => destruct x end;
      [eexists; reflexivity|].
    unfold num_mul, int_to_float.
    change (Float64.is_infinite (Float64.of_Z 2)) with false.
    eexists. reflexivity.
Qed.

Lemma _preflop_returns game_state hole_cards legal_actions min_bet max_bet s :
  0 <= pot game_state < 2 ^ 53 ->
  returns_at (_preflop game_state hole_cards legal_actions min_bet max_bet) s.
Proof.
  intros Hpot. unfold _preflop. cbv zeta. repeat returns_at_step.
  - apply evaluate_preflop_strength_returns.
    apply negb_false_iff, Nat.eqb_eq in Heqb. exact Heqb.
  - apply choose_raise_amount_returns; [exact Hpot | policy_factor].
  - apply choose_raise_amount_returns; [exact Hpot | policy_factor].
  - apply choose_raise_amount_returns; [exact Hpot | policy_factor].
Qed.

Lemma _postflop_returns game_state hole_cards legal_actions min_bet max_bet s :
  0 <= pot game_state < 2 ^ 53 ->
  is_Some (HAND_RANKINGS
             !! evaluate_best_hand (hole_cards ++ community_cards game_state)) ->
  is_Some (player_bets game_state !! name s) ->
  returns_at (_postflop game_state hole_cards legal_actions min_bet max_bet) s.
Proof.
  intros Hpot [rv Hrv] [bet Hbet]. unfold _postflop, getitem. cbv zeta.
  repeat first [apply _should_bluff_or_value_returns | returns_at_step];
    try (apply choose_raise_amount_returns; [exact Hpot | policy_factor]).
  all: first [rewrite Hrv | rewrite Hbet]; eexists; reflexivity.
Qed.

(** X1: [get_action] returns a pair whenever the pot is below [2^53] and, after
    the flop, the evaluator's label is in [HAND_RANKINGS] and [player_bets]
    has the policy's own entry. *)
Lemma get_action_returns game_state hole_cards legal_actions min_bet max_bet s :
  0 <= pot game_state < 2 ^ 53 ->
  String.eqb (round_name game_state) "preflop" = true
  \/ (is_Some (HAND_RANKINGS
                 !! evaluate_best_hand (hole_cards ++ community_cards game_state))
      /\ is_Some (player_bets game_state !! name s)) ->
  exists action s',
    get_action game_state hole_cards legal_actions min_bet max_bet s = (Ok action, s').
Proof.
  intros Hpot Hround. unfold get_action.
  destruct legal_actions as [|a0 legal']; [eexists _, _; reflexivity|].
  destruct (String.eqb (round_name game_state) "preflop") eqn:Hpre.
  - destruct (_preflop_returns game_state hole_cards (a0 :: legal') min_bet max_bet
                s Hpot) as [action Hrun].
    rewrite bind_run, Hrun.
    destruct (bool_decide (action.1 = RAISE)); eexists _, _; reflexivity.
  - destruct Hround as [Hround|[Hlabel Hentry]]; [discriminate|].
    destruct (_postflop_returns game_state hole_cards (a0 :: legal') min_bet max_bet
                s Hpot Hlabel Hentry) as [action Hrun].
    eexists _, _. exact Hrun.
Qed.
End Returning.

(** * Runs of the embedding *)

Example aces_estimate :
  _evaluate_preflop_strength Examples.aces = Ok (Float64.of_Z 1).
Proof. vm_compute. reflexivity. Qed.

Example kings_reach_raise_threshold :
  exists x, _evaluate_preflop_strength [mkCard KING SPADES; mkCard KING HEARTS] = Ok x
    /\ Float64.geb x (min_confidence_to_raise Examples.me) = true.
Proof. eexists. split; vm_compute; reflexivity. Qed.

Example spade_wheel_is_a_draw :
  _has_strong_draw
    [mkCard ACE SPADES; mkCard TWO SPADES; mkCard THREE SPADES; mkCard FOUR SPADES;
     mkCard FIVE HEARTS] = true.
Proof. vm_compute. reflexivity. Qed.

Example scattered_cards_are_no_draw :
  _has_strong_draw
    [mkCard ACE SPADES; mkCard TWO HEARTS; mkCard KING SPADES; mkCard FOUR CLUBS;
     mkCard NINE HEARTS] = false.
Proof. vm_compute. reflexivity. Qed.

Example sizing_truncates :
  _choose_raise_amount
    {| round_name := "flop"; current_bet := 0; pot := 33; big_blind := 10;
       player_bets := ∅; community_cards := [] |}
    10 500 (Flt (Float64.dec 6 10)) = Ok 19.
Proof. vm_compute. reflexivity. Qed.

Example win_moves_aggression_up :
  aggression
    (hand_complete Examples.flop_state (mkHandResult (Some ["NATHAN"%string]))
                   Examples.me).2 = Float64.dec 61 100.
Proof. vm_compute. reflexivity. Qed.

Example loss_moves_aggression_down :
  aggression
    (hand_complete Examples.flop_state (mkHandResult (Some ["villain"%string]))
                   Examples.me).2 = Float64.sub (Float64.dec 6 10) (Float64.dec 5 1000)
  /\ opponent_stats
       (hand_complete Examples.flop_state (mkHandResult (Some ["villain"%string]))
                      Examples.me).2 = {[ "villain"%string := mkStats 1 0 1 ]}.
Proof. split; vm_compute; reflexivity. Qed.

Example table_size_sets_aggression :
  aggression (@tournament_start SampleEngine.engine ["a"; "b"; "c"]%string 1000
                Examples.me).2 = Float64.dec 65 100
  /\ aggression (@tournament_start SampleEngine.engine
                   ["a"; "b"; "c"; "d"; "e"; "f"]%string 1000 Examples.me).2
     = Float64.dec 55 100
  /\ aggression (@tournament_start SampleEngine.engine
                   ["a"; "b"; "c"; "d"; "e"; "f"; "g"; "h"; "i"]%string 1000
                   Examples.me).2
     = Float64.dec 45 100.
Proof. repeat split; vm_compute; reflexivity. Qed.

(** * Concrete decisions *)

Lemma get_action_legal_or_fold_witness :
  [FOLD; CALL; RAISE] <> []
  /\ @get_action SampleEngine.engine Examples.preflop_state Examples.aces
       [FOLD; CALL; RAISE] 20 1000 Examples.me =
     (Ok (RAISE, 60), set_last_raised_preflop true Examples.me)
  /\ ((RAISE, 60).1 ∈ [FOLD; CALL; RAISE] \/ (RAISE, 60).1 = FOLD).
Proof.
  assert (Hne : [FOLD; CALL; RAISE] <> []) by discriminate.
  assert (Hrun : @get_action SampleEngine.engine Examples.preflop_state Examples.aces
                   [FOLD; CALL; RAISE] 20 1000 Examples.me =
                 (Ok (RAISE, 60), set_last_raised_preflop true Examples.me))
    by (vm_compute; reflexivity).
  split; [exact Hne|]. split; [exact Hrun|].
  exact (@get_action_legal_or_fold SampleEngine.engine Examples.preflop_state
           Examples.aces [FOLD; CALL; RAISE] 20 1000 Examples.me (RAISE, 60)
           (set_last_raised_preflop true Examples.me) Hne Hrun).
Defined.

(** Preflop with seven-deuce offsuit and only [CALL] and [RAISE] legal: the
    policy returns [FOLD], which is not among the legal actions. *)
Lemma get_action_fold_not_legal :
  [CALL; RAISE] <> []
  /\ (@get_action SampleEngine.engine Examples.preflop_state Examples.seven_deuce
        [CALL; RAISE] 20 1000 Examples.me).1 = Ok (FOLD, 0)
  /\ FOLD ∉ [CALL; RAISE].
Proof.
  split; [discriminate|]. split; [vm_compute; reflexivity|].
  intros Hin. apply list_elem_of_In in Hin. simpl in Hin.
  destruct Hin as [Hin|[Hin|[]]]; discriminate.
Qed.

(** After a preflop raise, a preflop call without legal actions returns
    [(FOLD, 0)] and a flop call returns [(CALL, 0)]; the flag is still
    true although the latest preflop decision did not return a raise. *)
Lemma last_raised_preflop_stale :
  map snd (@run SampleEngine.engine Examples.stale_calls Examples.me).1 =
    [Ok (RAISE, 60); Ok (FOLD, 0); Ok (CALL, 0)]
  /\ last_raised_preflop
       (@run SampleEngine.engine Examples.stale_calls Examples.me).2 = true
  /\ last_preflop_raise false
       (@run SampleEngine.engine Examples.stale_calls Examples.me).1 = false.
Proof. repeat split; vm_compute; reflexivity. Qed.

Section KeyErrorPath.
Context `{EngineAPI}.

(** The medium-hand branch of [_postflop] indexes [player_bets] by the
    policy's name: with a hand ranked at least a pair and below two pair,
    [CALL] legal, and no continuation bet, a [player_bets] without that
    entry makes the method raise [KeyError]. *)
Lemma _postflop_pair_without_entry game_state hole_cards legal_actions min_bet max_bet
    s rank_value :
  HAND_RANKINGS !! evaluate_best_hand (hole_cards ++ community_cards game_state)
    = Some rank_value ->
  default 1 (HAND_RANKINGS !! "pair"%string) <= rank_value
    < default 2 (HAND_RANKINGS !! "two_pair"%string) ->
  action_in CALL legal_actions = true ->
  action_in RAISE legal_actions = false ->
  player_bets game_state !! name s = None ->
  _postflop game_state hole_cards legal_actions min_bet max_bet s = (Raise KeyError, s).
Proof.
  intros Hrank [Hpair Htwo] Hcall Hraise Hentry.
  unfold _postflop, getitem. cbv zeta. rewrite Hrank.
  rewrite bind_run. unfold lift at 1. cbv beta iota.
  rewrite bind_run, self_get_run. cbv beta iota.
  rewrite Hraise, andb_false_r.
  replace (default 2 (HAND_RANKINGS !! "two_pair"%string) <=? rank_value) with false
    by (symmetry; apply Z.leb_gt; lia).
  replace (default 1 (HAND_RANKINGS !! "pair"%string) <=? rank_value) with true
    by (symmetry; apply Z.leb_le; lia).
  rewrite Hcall. rewrite bind_run, self_get_run. cbv beta iota.
  rewrite bind_run. unfold lift at 1. rewrite Hentry. reflexivity.
Qed.

End KeyErrorPath.

(** ** C2 *)

(** C2 (the code departs from it): on the flop, holding a pair of aces with
    [CALL] legal and a [player_bets] that has no entry for the policy's own
    name, [get_action] raises [KeyError] to its caller. *)
Theorem get_action_raises_KeyError :
  player_bets Examples.flop_state !! name Examples.me = None
  /\ @get_action SampleEngine.engine Examples.flop_state Examples.aces
       [FOLD; CALL] 20 1000 Examples.me = (Raise KeyError, Examples.me).
Proof. split; vm_compute; reflexivity. Qed.

(** * Further properties of decisions *)

Lemma returns_only_bind_lift {A B : Type} (Q : B -> Prop) (r : result A)
    (k : A -> Bot B) :
  (forall a, r = Ok a -> returns_only Q (k a)) -> returns_only Q (lift r ≫= k).
Proof.
  intros Hk s b s' Heq. rewrite bind_run in Heq. unfold lift in Heq.
  destruct r as [a|e]; [|discriminate].
  exact (Hk a eq_refl s b s' Heq).
Qed.

(** one step through a computation, keeping what a lifted call returned *)
Ltac returns_step_eq :=
  lazymatch goal with
  | |- returns_only _ (mret _) => apply returns_only_ret
  | |- returns_only _ (lift _ ≫= _) => apply returns_only_bind_lift; intros ? ?
  | |- returns_only _ (_ ≫= _) =>
      eapply returns_only_bind; [apply returns_only_any | intros ? _]
  | |- returns_only _ (if ?b then _ else _) => destruct b eqn:?
  | |- returns_only _ (match ?x with _ => _ end) => destruct x eqn:?
  end.

(** the amount is the pot-based target clamped, [min_bet] winning *)
Lemma choose_raise_amount_clamp game_state min_bet max_bet factor r :
  _choose_raise_amount game_state min_bet max_bet factor = Ok r ->
  exists desired,
    r = Z.max min_bet (Z.min (Z.max min_bet desired) max_bet).
Proof.
  unfold _choose_raise_amount, mbind, result_bind.
  destruct (num_mul _ _) as [product|e]; [|discriminate].
  destruct (num_int product) as [desired|e]; [|discriminate].
  intros Hr. exists desired.
  destruct (Z.ltb_spec (Z.min (Z.max min_bet desired) max_bet) min_bet);
    injection Hr as <-; lia.
Qed.

Lemma fallback_well_sized (legal_actions : list PlayerAction) (min_bet max_bet : Z) :
  well_sized min_bet max_bet (fallback_check_call_fold legal_actions).
Proof.
  unfold fallback_check_call_fold.
  destruct (action_in CHECK legal_actions); [reflexivity|].
  destruct (action_in CALL legal_actions); reflexivity.
Qed.

(** closes the leaves of a sizing proof *)
Ltac sized_leaf :=
  first
    [ apply fallback_well_sized
    | reflexivity
    | match goal with
      | Hr : _choose_raise_amount _ _ _ _ = Ok _ |- _ =>
          apply choose_raise_amount_clamp in Hr; destruct Hr as [? ->];
          simpl; lia
      end ].

Section FurtherDecisions.
Context `{EngineAPI}.

Lemma _preflop_well_sized game_state hole_cards legal_actions min_bet max_bet :
  returns_only (well_sized min_bet max_bet)
               (_preflop game_state hole_cards legal_actions min_bet max_bet).
Proof. unfold _preflop. cbv zeta. repeat returns_step_eq; sized_leaf. Qed.

Lemma _postflop_well_sized game_state hole_cards legal_actions min_bet max_bet :
  returns_only (well_sized min_bet max_bet)
               (_postflop game_state hole_cards legal_actions min_bet max_bet).
Proof. unfold _postflop. cbv zeta. repeat returns_step_eq; sized_leaf. Qed.

(** X2: every pair [get_action] returns is well sized: the action is [FOLD],
    [CHECK] or [CALL] with amount 0, or [RAISE] with an amount of at least
    [min_bet] and, when [min_bet <= max_bet], of at most [max_bet]. *)
Theorem get_action_well_sized game_state hole_cards legal_actions min_bet max_bet
    s action s' :
  get_action game_state hole_cards legal_actions min_bet max_bet s = (Ok action, s') ->
  well_sized min_bet max_bet action.
Proof.
  revert s action s'.
  change (returns_only (well_sized min_bet max_bet)
            (get_action game_state hole_cards legal_actions min_bet max_bet)).
  unfold get_action. destruct legal_actions as [|a0 legal'].
  - apply returns_only_ret. reflexivity.
  - destruct (String.eqb _ _).
    + eapply returns_only_bind; [apply _preflop_well_sized|].
      intros action Haction.
      eapply returns_only_bind; [apply returns_only_any|].
      intros _ _. apply returns_only_ret. exact Haction.
    + apply _postflop_well_sized.
Qed.

(** X3: with [CHECK] legal the policy never folds, provided that before the
    flop it holds two hole cards. *)
Theorem get_action_checks_before_folding game_state hole_cards legal_actions
    min_bet max_bet s action s' :
  CHECK ∈ legal_actions ->
  String.eqb (round_name game_state) "preflop" = false \/ length hole_cards = 2%nat ->
  get_action game_state hole_cards legal_actions min_bet max_bet s = (Ok action, s') ->
  action.1 <> FOLD.
Proof.
  intros Hcheck Hcards. apply action_in_spec in Hcheck.
  revert s action s'.
  change (returns_only (fun action => action.1 <> FOLD)
            (get_action game_state hole_cards legal_actions min_bet max_bet)).
  unfold get_action. destruct legal_actions as [|a0 legal'].
  - discriminate Hcheck.
  - destruct (String.eqb _ _) eqn:Hround.
    + destruct Hcards as [Hcards|Hcards]; [discriminate|].
      eapply returns_only_bind with (P := fun action => action.1 <> FOLD).
      * unfold _preflop. cbv zeta.
        rewrite Hcards, Hcheck. simpl negb. cbv iota.
        repeat returns_step; simpl; discriminate.
      * intros action Haction.
        eapply returns_only_bind; [apply returns_only_any|].
        intros _ _. apply returns_only_ret. exact Haction.
    + unfold _postflop, fallback_check_call_fold. cbv zeta. rewrite Hcheck.
      repeat returns_step; simpl; discriminate.
Qed.

(** X4: before the flop, a hand that is not two cards is folded, and the
    flag records that the decision was no raise. *)
Theorem get_action_malformed_hole_cards game_state hole_cards legal_actions
    min_bet max_bet s :
  legal_actions <> [] ->
  String.eqb (round_name game_state) "preflop" = true ->
  length hole_cards <> 2%nat ->
  get_action game_state hole_cards legal_actions min_bet max_bet s =
  (Ok (FOLD, 0), set_last_raised_preflop false s).
Proof.
  intros Hne Hround Hlen. unfold get_action.
  destruct legal_actions as [|a0 legal']; [congruence|].
  rewrite Hround. unfold _preflop.
  replace (length hole_cards =? 2)%nat with false
    by (symmetry; apply Nat.eqb_neq; exact Hlen).
  reflexivity.
Qed.

(** X5: after the flop, a hand type that [HAND_RANKINGS] does not list makes
    [get_action] raise [KeyError], whatever the legal actions. *)
Theorem get_action_unknown_hand_type game_state hole_cards legal_actions
    min_bet max_bet s :
  legal_actions <> [] ->
  String.eqb (round_name game_state) "preflop" = false ->
  HAND_RANKINGS !! evaluate_best_hand (hole_cards ++ community_cards game_state)
    = None ->
  get_action game_state hole_cards legal_actions min_bet max_bet s =
  (Raise KeyError, s).
Proof.
  intros Hne Hround Hlabel. unfold get_action.
  destruct legal_actions as [|a0 legal']; [congruence|].
  rewrite Hround. unfold _postflop, getitem. cbv zeta. rewrite Hlabel.
  reflexivity.
Qed.

(** X6: after the flop, a hand ranked at least a pair and below two pair,
    with [CALL] legal and no continuation bet due, makes [get_action] raise
    [KeyError] when [player_bets] has no entry for the policy's own name. *)
Theorem get_action_missing_own_bet game_state hole_cards legal_actions
    min_bet max_bet s rank_value :
  String.eqb (round_name game_state) "preflop" = false ->
  HAND_RANKINGS !! evaluate_best_hand (hole_cards ++ community_cards game_state)
    = Some rank_value ->
  default 1 (HAND_RANKINGS !! "pair"%string) <= rank_value
    < default 2 (HAND_RANKINGS !! "two_pair"%string) ->
  CALL ∈ legal_actions ->
  cbet_guard s game_state legal_actions = false ->
  player_bets game_state !! name s = None ->
  get_action game_state hole_cards legal_actions min_bet max_bet s =
  (Raise KeyError, s).
Proof.
  intros Hround Hrank [Hpair Htwo] Hcall Hguard Hentry.
  apply action_in_spec in Hcall. unfold cbet_guard in Hguard.
  unfold get_action. destruct legal_actions as [|a0 legal']; [discriminate Hcall|].
  rewrite Hround. unfold _postflop, getitem. cbv zeta. rewrite Hrank.
  rewrite bind_run. unfold lift at 1. cbv beta iota.
  rewrite bind_run, self_get_run. cbv beta iota.
  rewrite Hguard.
  replace (default 2 (HAND_RANKINGS !! "two_pair"%string) <=? rank_value) with false
    by (symmetry; apply Z.leb_gt; lia).
  replace (default 1 (HAND_RANKINGS !! "pair"%string) <=? rank_value) with true
    by (symmetry; apply Z.leb_le; lia).
  rewrite Hcall. rewrite bind_run, self_get_run. cbv beta iota.
  rewrite bind_run. unfold lift at 1. rewrite Hentry. reflexivity.
Qed.

(** X7: after the flop, two pair or better with [RAISE] legal is raised, for
    every pot below [2^53] and whatever [player_bets] holds. *)
Theorem get_action_raises_strong_hand game_state hole_cards legal_actions
    min_bet max_bet s rank_value :
  String.eqb (round_name game_state) "preflop" = false ->
  0 <= pot game_state < 2 ^ 53 ->
  HAND_RANKINGS !! evaluate_best_hand (hole_cards ++ community_cards game_state)
    = Some rank_value ->
  default 2 (HAND_RANKINGS !! "two_pair"%string) <= rank_value ->
  RAISE ∈ legal_actions ->
  exists amount,
    get_action game_state hole_cards legal_actions min_bet max_bet s =
    (Ok (RAISE, amount), s).
Proof.
  intros Hround Hpot Hrank Htwo Hraise. apply action_in_spec in Hraise.
  unfold get_action. destruct legal_actions as [|a0 legal']; [discriminate Hraise|].
  rewrite Hround. unfold _postflop, getitem. cbv zeta. rewrite Hrank.
  rewrite bind_run. unfold lift at 1. cbv beta iota.
  rewrite bind_run, self_get_run. cbv beta iota.
  rewrite Hraise.
  replace (default 2 (HAND_RANKINGS !! "two_pair"%string) <=? rank_value) with true
    by (symmetry; apply Z.leb_le; lia).
  destruct (choose_raise_amount_returns game_state min_bet max_bet
              (Flt (Float64.dec 6 10)) Hpot) as [n1 Hn1];
    [unfold policy_factors; repeat first [apply list_elem_of_here | apply list_elem_of_further]|].
  destruct (choose_raise_amount_int_factor game_state min_bet max_bet 1) as [n2 Hn2].
  repeat match goal with
         | |- context [if ?b then _ else _] => destruct b
         end;
    rewrite bind_run; unfold lift; rewrite ?Hn1, ?Hn2; eexists; reflexivity.
Qed.

End FurtherDecisions.

(** * Further properties of the preflop estimate *)

(** X8: the preflop estimate does not depend on the order of the two hole
    cards. *)
Theorem evaluate_preflop_strength_symmetric (c1 c2 : Card) :
  _evaluate_preflop_strength [c1; c2] = _evaluate_preflop_strength [c2; c1].
Proof.
  unfold _evaluate_preflop_strength. cbv zeta.
  rewrite (Z.max_comm (Rank_value (rank c2)) (Rank_value (rank c1))).
  rewrite (Z.add_comm (Rank_value (rank c2)) (Rank_value (rank c1))).
  rewrite (Z.eqb_sym (Rank_value (rank c2)) (Rank_value (rank c1))).
  replace (Z.abs (Rank_value (rank c2) - Rank_value (rank c1)))
    with (Z.abs (Rank_value (rank c1) - Rank_value (rank c2))) by lia.
  replace (bool_decide (suit c2 = suit c1)) with (bool_decide (suit c1 = suit c2))
    by (apply bool_decide_ext; split; congruence).
  reflexivity.
Qed.

Lemma estimate_of_suited (c1 c2 : Card) :
  suit c1 = suit c2 ->
  estimate c1 c2 = estimate (mkCard (rank c1) HEARTS) (mkCard (rank c2) HEARTS).
Proof.
  intros Hs. unfold estimate, _evaluate_preflop_strength. cbv zeta. simpl rank.
  simpl suit. rewrite !bool_decide_eq_true_2 by (reflexivity || exact Hs).
  reflexivity.
Qed.

Lemma deck_suited_at_least :
  forallb (fun c1 =>
             forallb (fun c2 =>
                        Float64.leb (estimate c1 c2)
                          (estimate (mkCard (rank c1) HEARTS) (mkCard (rank c2) HEARTS)))
                     deck)
          deck = true.
Proof. vm_compute. reflexivity. Qed.

(** X9: two suited cards are never estimated lower than two cards of the
    same ranks in any suits. *)
Theorem suited_estimate_at_least (c1 c2 d1 d2 : Card) :
  suit c1 = suit c2 -> rank d1 = rank c1 -> rank d2 = rank c2 ->
  Float64.leb (estimate d1 d2) (estimate c1 c2) = true.
Proof.
  intros Hs Hr1 Hr2. rewrite (estimate_of_suited c1 c2 Hs), <- Hr1, <- Hr2.
  pose proof deck_suited_at_least as Hall.
  rewrite forallb_forall in Hall. specialize (Hall d1 (in_deck d1)).
  rewrite forallb_forall in Hall. exact (Hall d2 (in_deck d2)).
Qed.

Lemma suited_estimate_at_least_witness :
  Float64.leb (estimate (mkCard ACE SPADES) (mkCard KING HEARTS))
              (estimate (mkCard ACE CLUBS) (mkCard KING CLUBS)) = true.
Proof.
  apply (suited_estimate_at_least (mkCard ACE CLUBS) (mkCard KING CLUBS)
           (mkCard ACE SPADES) (mkCard KING HEARTS)); reflexivity.
Defined.

Lemma deck_big_pairs :
  forallb (fun c1 =>
             forallb (fun c2 =>
                        implb (jacks_or_better c1 c2)
                              (Float64.geb (estimate c1 c2) (Float64.dec 75 100)))
                     deck)
          deck = true.
Proof. vm_compute. reflexivity. Qed.

Lemma big_pair_estimate (c1 c2 : Card) :
  jacks_or_better c1 c2 = true ->
  exists x, _evaluate_preflop_strength [c1; c2] = Ok x
    /\ Float64.geb x (Float64.dec 75 100) = true.
Proof.
  intros Hbig. pose proof deck_big_pairs as Hall.
  rewrite forallb_forall in Hall. specialize (Hall c1 (in_deck c1)).
  rewrite forallb_forall in Hall. specialize (Hall c2 (in_deck c2)).
  rewrite Hbig in Hall. simpl in Hall. unfold estimate in Hall.
  destruct (_evaluate_preflop_strength [c1; c2]) as [x|e]; [|discriminate].
  exists x. split; [reflexivity | exact Hall].
Qed.

Section BigPairs.
Context `{EngineAPI}.

(** X10: before the flop, a pocket pair of jacks or better is raised whenever
    [RAISE] is legal, for every pot below [2^53] and an instance with the
    raise threshold of [__init__]; the flag is set. *)
Theorem get_action_raises_big_pairs game_state c1 c2 legal_actions min_bet max_bet s :
  String.eqb (round_name game_state) "preflop" = true ->
  0 <= pot game_state < 2 ^ 53 ->
  min_confidence_to_raise s = Float64.dec 75 100 ->
  jacks_or_better c1 c2 = true ->
  RAISE ∈ legal_actions ->
  exists amount,
    get_action game_state [c1; c2] legal_actions min_bet max_bet s =
    (Ok (RAISE, amount), set_last_raised_preflop true s).
Proof.
  intros Hround Hpot Hthr Hbig Hraise. apply action_in_spec in Hraise.
  destruct (big_pair_estimate c1 c2 Hbig) as (x & Hx & Hge).
  unfold get_action. destruct legal_actions as [|a0 legal']; [discriminate Hraise|].
  rewrite Hround. unfold _preflop. cbv zeta. simpl negb. cbv iota.
  rewrite Hx. rewrite bind_run, bind_run. unfold lift at 1. cbv beta iota.
  rewrite bind_run, self_get_run. cbv beta iota.
  rewrite bind_run, self_get_run. cbv beta iota.
  rewrite Hthr, Hge, Hraise.
  match goal with
  | |- context [_choose_raise_amount ?g ?lo ?hi ?f] =>
      destruct (choose_raise_amount_returns g lo hi f Hpot) as [amount Hamount];
      [unfold policy_factors;
       repeat match goal with |- context [if ?b then _ else _] => destruct b end;
       repeat first [apply list_elem_of_here | apply list_elem_of_further]|];
      rewrite bind_run; unfold lift at 1; rewrite Hamount
  end.
  exists amount. reflexivity.
Qed.

End BigPairs.

Lemma get_action_raises_big_pairs_witness :
  exists amount,
    @get_action SampleEngine.engine Examples.preflop_state
      [mkCard QUEEN SPADES; mkCard QUEEN HEARTS] [FOLD; CALL; RAISE] 20 1000 Examples.me =
    (Ok (RAISE, amount), set_last_raised_preflop true Examples.me).
Proof.
  apply (@get_action_raises_big_pairs SampleEngine.engine Examples.preflop_state
           (mkCard QUEEN SPADES) (mkCard QUEEN HEARTS) [FOLD; CALL; RAISE] 20 1000
           Examples.me).
  - reflexivity.
  - vm_compute. split; [discriminate | reflexivity].
  - reflexivity.
  - vm_compute. reflexivity.
  - apply list_elem_of_further, list_elem_of_further, list_elem_of_here.
Defined.

(** * Further properties of the draw detector *)

Lemma strictly_sorted_of_nodup (l : list Z) :
  StronglySorted Z.le l -> NoDup l -> StronglySorted Z.lt l.
Proof.
  induction 1 as [|x l Hs IH Hall]; intros Hnd; [constructor|].
  apply NoDup_cons in Hnd. destruct Hnd as [Hx Hnd].
  constructor; [apply IH, Hnd|].
  rewrite Forall_forall in Hall. apply Forall_forall. intros y Hy.
  specialize (Hall y Hy).
  assert (x <> y) by (intros ->; apply Hx, Hy). lia.
Qed.

(** In a strictly increasing list of integers, entries [n] places apart
    differ by at least [n]. *)
Lemma strictly_sorted_gap (l : list Z) :
  StronglySorted Z.lt l ->
  forall i n a b, l !! i = Some a -> l !! (i + n)%nat = Some b -> a + Z.of_nat n <= b.
Proof.
  induction 1 as [|x l Hs IH Hall]; intros i n a b Ha Hb; [discriminate|].
  destruct i as [|i].
  - simpl in Ha. injection Ha as <-.
    destruct n as [|n]; simpl in Hb; [injection Hb as <-; lia|].
    rewrite Forall_forall in Hall.
    destruct (l !! 0%nat) as [c|] eqn:Hc.
    + specialize (IH 0%nat n c b Hc Hb).
      assert (x < c) by (apply Hall, (list_elem_of_lookup_2 l 0 c Hc)).
      lia.
    + destruct l; [discriminate Hb | discriminate Hc].
  - simpl in Ha, Hb. exact (IH i n a b Ha Hb).
Qed.

(** the ranks the detector scans: the distinct rank values, increasing *)
Lemma ranks_strictly_sorted (all_cards : list Card) :
  StronglySorted Z.lt (merge_sort Z.le (remove_dups (rank_values all_cards))).
Proof.
  apply strictly_sorted_of_nodup.
  - apply StronglySorted_merge_sort; exact _.
  - rewrite merge_sort_Permutation. apply NoDup_remove_dups.
Qed.

Lemma elem_of_ranks (v : Z) (all_cards : list Card) :
  v ∈ merge_sort Z.le (remove_dups (rank_values all_cards))
  <-> v ∈ rank_values all_cards.
Proof. rewrite merge_sort_Permutation, elem_of_remove_dups. reflexivity. Qed.

(** The window test of the detector finds exactly four consecutive values. *)
Lemma window_test_spec (ranks : list Z) :
  StronglySorted Z.lt ranks ->
  (4 <=? length ranks)%nat
  && existsb (fun i =>
                match ranks !! (i + 3)%nat, ranks !! i with
                | Some hi, Some lo => hi - lo =? 3
                | _, _ => false
                end)
             (seq 0 (length ranks - 3)) = true
  <-> exists v, forall k, 0 <= k <= 3 -> v + k ∈ ranks.
Proof.
  intros Hs. split.
  - intros Hw. apply andb_true_iff in Hw. destruct Hw as [_ Hw].
    apply existsb_exists in Hw. destruct Hw as (i & _ & Hi).
    destruct (ranks !! (i + 3)%nat) as [hi|] eqn:Hhi; [|discriminate].
    destruct (ranks !! i) as [lo|] eqn:Hlo; [|discriminate].
    apply Z.eqb_eq in Hi.
    assert (Hlen : (i + 3 < length ranks)%nat)
      by (apply lookup_lt_is_Some; eauto).
    destruct (lookup_lt_is_Some_2 ranks (i + 1)) as [a1 Ha1]; [lia|].
    destruct (lookup_lt_is_Some_2 ranks (i + 2)) as [a2 Ha2]; [lia|].
    pose proof (strictly_sorted_gap ranks Hs i 1 lo a1 Hlo Ha1) as G1.
    pose proof (strictly_sorted_gap ranks Hs (i + 1) 1 a1 a2 Ha1) as G2.
    replace (i + 1 + 1)%nat with (i + 2)%nat in G2 by lia. specialize (G2 Ha2).
    pose proof (strictly_sorted_gap ranks Hs (i + 2) 1 a2 hi Ha2) as G3.
    replace (i + 2 + 1)%nat with (i + 3)%nat in G3 by lia. specialize (G3 Hhi).
    exists lo. intros k Hk.
    assert (Hcases : k = 0 \/ k = 1 \/ k = 2 \/ k = 3) by lia.
    destruct Hcases as [-> | [-> | [-> | ->]]].
    + replace (lo + 0) with lo by lia. exact (list_elem_of_lookup_2 _ _ _ Hlo).
    + replace (lo + 1) with a1 by lia. exact (list_elem_of_lookup_2 _ _ _ Ha1).
    + replace (lo + 2) with a2 by lia. exact (list_elem_of_lookup_2 _ _ _ Ha2).
    + replace (lo + 3) with hi by lia. exact (list_elem_of_lookup_2 _ _ _ Hhi).
  - intros (v & Hv).
    destruct (list_elem_of_lookup_1 ranks (v + 0) (Hv 0 ltac:(lia))) as [i0 H0].
    destruct (list_elem_of_lookup_1 ranks (v + 1) (Hv 1 ltac:(lia))) as [i1 H1].
    destruct (list_elem_of_lookup_1 ranks (v + 2) (Hv 2 ltac:(lia))) as [i2 H2].
    destruct (list_elem_of_lookup_1 ranks (v + 3) (Hv 3 ltac:(lia))) as [i3 H3].
    (* a later value sits at a later index *)
    assert (Horder : forall i j a b,
               ranks !! i = Some a -> ranks !! j = Some b -> a < b -> (i < j)%nat).
    { intros i j a b Ha Hb Hab.
      destruct (Nat.lt_ge_cases i j) as [|Hge]; [assumption|exfalso].
      pose proof (strictly_sorted_gap ranks Hs j (i - j) b a Hb) as G.
      replace (j + (i - j))%nat with i in G by lia. specialize (G Ha). lia. }
    pose proof (Horder _ _ _ _ H0 H1 ltac:(lia)).
    pose proof (Horder _ _ _ _ H1 H2 ltac:(lia)).
    pose proof (Horder _ _ _ _ H2 H3 ltac:(lia)).
    pose proof (strictly_sorted_gap ranks Hs i0 (i3 - i0) (v + 0) (v + 3) H0) as G.
    replace (i0 + (i3 - i0))%nat with i3 in G by lia. specialize (G H3).
    assert (Hi3 : i3 = (i0 + 3)%nat) by lia. subst i3.
    assert (Hlen : (i0 + 3 < length ranks)%nat)
      by (apply lookup_lt_is_Some; eauto).
    apply andb_true_iff. split; [apply Nat.leb_le; lia|].
    apply existsb_exists. exists i0. split.
    + apply in_seq. lia.
    + rewrite H3, H0. apply Z.eqb_eq. lia.
Qed.

Lemma flush_test_spec (all_cards : list Card) :
  existsb (fun s => 4 <=? count s (map suit all_cards))
          (remove_dups (map suit all_cards)) = true
  <-> four_to_a_suit all_cards.
Proof.
  unfold four_to_a_suit. rewrite existsb_exists. split.
  - intros (s & _ & Hs). exists s. apply Z.leb_le. exact Hs.
  - intros (s & Hs). exists s. split; [|apply Z.leb_le; exact Hs].
    apply list_elem_of_In, elem_of_remove_dups, count_pos_elem. lia.
Qed.

Lemma issubset_spec (xs l : list Z) :
  issubset xs l = true <-> forall v, v ∈ xs -> v ∈ l.
Proof.
  unfold issubset. rewrite forallb_forall. split.
  - intros Hall v Hv. apply list_elem_of_In in Hv.
    specialize (Hall v Hv). apply bool_decide_eq_true in Hall. exact Hall.
  - intros Hall v Hv. apply bool_decide_eq_true_2, Hall, list_elem_of_In, Hv.
Qed.

(** X11: [_has_strong_draw] is true exactly when four cards share a suit, or
    four consecutive rank values are present, or ace, 2, 3 and 4 are. *)
Theorem has_strong_draw_spec (all_cards : list Card) :
  _has_strong_draw all_cards = true
  <-> four_to_a_suit all_cards \/ four_in_a_row all_cards \/ ace_low_run all_cards.
Proof.
  pose proof (flush_test_spec all_cards) as Hflush.
  pose proof (window_test_spec _ (ranks_strictly_sorted all_cards)) as Hwindow.
  unfold _has_strong_draw. cbv zeta. fold (rank_values all_cards).
  set (ranks := merge_sort Z.le (remove_dups (rank_values all_cards))) in *.
  destruct (existsb _ (remove_dups (map suit all_cards)));
    [split; [intros _; left; apply Hflush; reflexivity | reflexivity]|].
  match goal with
  | |- (if ?w then _ else _) = _ <-> _ => destruct w
  end.
  { split; [intros _|reflexivity]. right. left.
    destruct (proj1 Hwindow eq_refl) as (v & Hv). exists v.
    intros k Hk. apply elem_of_ranks, Hv, Hk. }
  assert (Hrow : ~ four_in_a_row all_cards).
  { intros (v & Hv).
    assert (Hfalse : false = true); [|discriminate].
    apply Hwindow. exists v. intros k Hk. apply elem_of_ranks, Hv, Hk. }
  assert (Hno_flush : ~ four_to_a_suit all_cards)
    by (intros Hf; apply Hflush in Hf; discriminate).
  destruct (issubset [14; 2; 3; 4] ranks) eqn:Hace.
  { split; [intros _|reflexivity]. right. right.
    intros v Hv. apply elem_of_ranks. revert v Hv. apply issubset_spec, Hace. }
  destruct (issubset [2; 3; 4; 5] ranks) eqn:Hfive.
  { exfalso. apply Hrow. exists 2. intros k Hk. apply elem_of_ranks.
    rewrite issubset_spec in Hfive. apply Hfive.
    assert (Hcases : k = 0 \/ k = 1 \/ k = 2 \/ k = 3) by lia.
    destruct Hcases as [-> | [-> | [-> | ->]]]; simpl;
      repeat first [apply list_elem_of_here | apply list_elem_of_further]. }
  simpl. split; [discriminate|].
  intros [Hf|[Hr|Ha]]; [contradiction|contradiction|].
  assert (Hsub : issubset [14; 2; 3; 4] ranks = true); [|congruence].
  apply issubset_spec. intros v Hv. apply elem_of_ranks, Ha, Hv.
Qed.

Lemma count_Permutation {A : Type} `{EqDecision A} (x : A) (l k : list A) :
  l ≡ₚ k -> count x l = count x k.
Proof.
  intros Hp. unfold count. f_equal. apply Permutation_length.
  apply filter_Permutation. exact Hp.
Qed.

Lemma count_le_length {A : Type} `{EqDecision A} (x : A) (l : list A) :
  count x l <= Z.of_nat (length l).
Proof. unfold count. apply inj_le. apply length_filter. Qed.

(** the scanned ranks are the same for two orderings of the cards *)
Lemma ranks_Permutation (cards1 cards2 : list Card) :
  cards1 ≡ₚ cards2 ->
  merge_sort Z.le (remove_dups (rank_values cards1))
  = merge_sort Z.le (remove_dups (rank_values cards2)).
Proof.
  intros Hp.
  assert (Hvals : rank_values cards1 ≡ₚ rank_values cards2)
    by (apply Permutation_map, Hp).
  apply (StronglySorted_unique Z.le).
  - apply StronglySorted_merge_sort; exact _.
  - apply StronglySorted_merge_sort; exact _.
  - rewrite !merge_sort_Permutation.
    apply NoDup_Permutation; try apply NoDup_remove_dups.
    intros v. rewrite !elem_of_remove_dups, Hvals. reflexivity.
Qed.

(** X12: the draw detector does not depend on the order in which the cards
    are given. *)
Theorem has_strong_draw_Permutation (cards1 cards2 : list Card) :
  cards1 ≡ₚ cards2 -> _has_strong_draw cards1 = _has_strong_draw cards2.
Proof.
  intros Hp.
  assert (Hflush :
    existsb (fun s => 4 <=? count s (map suit cards1)) (remove_dups (map suit cards1))
    = existsb (fun s => 4 <=? count s (map suit cards2)) (remove_dups (map suit cards2))).
  { assert (Hsuits : map suit cards1 ≡ₚ map suit cards2)
      by (apply Permutation_map, Hp).
    pose proof (flush_test_spec cards1) as H1.
    pose proof (flush_test_spec cards2) as H2.
    assert (H12 : four_to_a_suit cards1 <-> four_to_a_suit cards2).
    { unfold four_to_a_suit. split; intros (s & Hs); exists s.
      - rewrite <- (count_Permutation s _ _ Hsuits). exact Hs.
      - rewrite (count_Permutation s _ _ Hsuits). exact Hs. }
    destruct (existsb _ (remove_dups (map suit cards1))),
             (existsb _ (remove_dups (map suit cards2))); try reflexivity.
    - symmetry. apply H2, H12, H1. reflexivity.
    - apply H1, H12, H2. reflexivity. }
  unfold _has_strong_draw. cbv zeta. fold (rank_values cards1) (rank_values cards2).
  rewrite Hflush, (ranks_Permutation cards1 cards2 Hp). reflexivity.
Qed.

Lemma has_strong_draw_Permutation_witness :
  _has_strong_draw Examples.wheel_cards = _has_strong_draw (rev Examples.wheel_cards).
Proof.
  apply (has_strong_draw_Permutation Examples.wheel_cards (rev Examples.wheel_cards)).
  apply Permutation_rev.
Defined.

Lemma issubset_needs_four (a b c d : Z) (ranks : list Z) :
  NoDup [a; b; c; d] -> (length ranks < 4)%nat -> issubset [a; b; c; d] ranks = false.
Proof.
  intros Hnd Hlen. apply not_true_iff_false. intros Hsub.
  rewrite issubset_spec in Hsub.
  pose proof (submseteq_length _ _ (NoDup_submseteq _ _ Hnd Hsub)) as Hle.
  simpl in Hle. lia.
Qed.

(** X13: fewer than four cards are never a strong draw. *)
Theorem has_strong_draw_needs_four_cards (all_cards : list Card) :
  (length all_cards < 4)%nat -> _has_strong_draw all_cards = false.
Proof.
  intros Hlen. unfold _has_strong_draw. cbv zeta. fold (rank_values all_cards).
  set (ranks := merge_sort Z.le (remove_dups (rank_values all_cards))).
  assert (Hranks : (length ranks < 4)%nat).
  { unfold ranks. rewrite merge_sort_Permutation.
    pose proof (submseteq_length _ _
                  (NoDup_submseteq _ (rank_values all_cards)
                     (NoDup_remove_dups (rank_values all_cards))
                     (fun v Hv => proj1 (elem_of_remove_dups _ v) Hv))) as Hle.
    unfold rank_values in Hle at 2. rewrite length_map in Hle. lia. }
  assert (Hflush :
    existsb (fun s => 4 <=? count s (map suit all_cards))
            (remove_dups (map suit all_cards)) = false).
  { apply not_true_iff_false. intros Hf. apply flush_test_spec in Hf.
    destruct Hf as (s & Hs). pose proof (count_le_length s (map suit all_cards)) as Hle.
    rewrite length_map in Hle. lia. }
  rewrite Hflush.
  replace (4 <=? length ranks)%nat with false by (symmetry; apply Nat.leb_gt; lia).
  rewrite !issubset_needs_four; [reflexivity | | exact Hranks | | exact Hranks];
    apply (bool_decide_unpack _); vm_compute; exact I.
Qed.

Lemma has_strong_draw_needs_four_cards_witness :
  _has_strong_draw Examples.dry_flop = false.
Proof.
  apply (has_strong_draw_needs_four_cards Examples.dry_flop). simpl. lia.
Defined.

(** * Further properties of the lifecycle hooks *)

Lemma hand_complete_run game_state hand_result s :
  exists s2,
    same_but_counters s s2
    /\ hand_complete game_state hand_result s =
       try_pass (for_each (map_to_list (player_bets game_state))
                          (update_opponent game_state hand_result)) s2.
Proof.
  unfold hand_complete. run_head.
  destruct (winners hand_result) as [ws|];
    [destruct (bool_decide (_ ∈ ws))|]; run_head;
    eexists; (split; [|reflexivity]); unfold same_but_counters; simpl; tauto.
Qed.

Lemma update_opponent_run game_state hand_result player bet s :
  exists s',
    update_opponent game_state hand_result (player, bet) s = (Ok tt, s')
    /\ same_but_stats s s'
    /\ (forall q, q <> player -> opponent_stats s' !! q = opponent_stats s !! q)
    /\ (if bool_decide (player = name s)
        then opponent_stats s' !! player = opponent_stats s !! player
        else exists after,
               opponent_stats s' !! player = Some after
               /\ hand_recorded game_state hand_result player bet
                    (default (mkStats 0 0 0) (opponent_stats s !! player)) after).
Proof.
  unfold update_opponent. run_head.
  destruct (bool_decide (player = name s)).
  - exists s. split; [reflexivity|]. split; [reflexivity|]. split; reflexivity.
  - run_head. eexists. split; [reflexivity|]. split; [hnf; simpl; tauto|].
    split.
    + intros q Hq. simpl. apply lookup_insert_ne. congruence.
    + eexists. split; [simpl; apply lookup_insert_eq|].
      unfold hand_recorded.
      destruct (big_blind game_state * 2 <? bet);
        destruct (winners hand_result) as [ws|];
        try destruct (bool_decide (player ∈ ws)); simpl; repeat split; lia.
Qed.

Lemma for_each_cons {A : Type} (x : A) (l : list A) (body : A -> Bot unit) :
  for_each (x :: l) body = (body x ≫= fun _ => for_each l body).
Proof. reflexivity. Qed.

(** The loop of [hand_complete] over entries with distinct players. *)
Lemma opponent_loop_run game_state hand_result (entries : list (string * Z)) :
  NoDup entries.*1 ->
  forall s, exists s',
    for_each entries (update_opponent game_state hand_result) s = (Ok tt, s')
    /\ same_but_stats s s'
    /\ (forall q, q ∉ entries.*1 -> opponent_stats s' !! q = opponent_stats s !! q)
    /\ (forall player bet, (player, bet) ∈ entries ->
        if bool_decide (player = name s)
        then opponent_stats s' !! player = opponent_stats s !! player
        else exists after,
               opponent_stats s' !! player = Some after
               /\ hand_recorded game_state hand_result player bet
                    (default (mkStats 0 0 0) (opponent_stats s !! player)) after).
Proof.
  induction entries as [|[p b] entries IH]; intros Hnd s.
  - exists s. split; [reflexivity|]. split; [reflexivity|].
    split; [reflexivity|]. intros player bet Hin. inversion Hin.
  - simpl in Hnd. apply NoDup_cons in Hnd. destruct Hnd as [Hp Hnd].
    destruct (update_opponent_run game_state hand_result p b s)
      as (s1 & Hrun1 & Hsame1 & Hother1 & Hthis1).
    destruct (IH Hnd s1) as (s' & Hrun & Hsame & Hother & Hthese).
    exists s'. rewrite for_each_cons, bind_run, Hrun1. split; [exact Hrun|].
    split; [etransitivity; eassumption|].
    assert (Hname : name s1 = name s) by apply Hsame1.
    split.
    + intros q Hq. simpl in Hq. apply not_elem_of_cons in Hq. destruct Hq as [Hqp Hq].
      rewrite (Hother q Hq). apply Hother1, Hqp.
    + intros player bet Hin. apply elem_of_cons in Hin.
      destruct Hin as [Heq|Hin].
      * injection Heq as -> ->. rewrite (Hother p Hp). exact Hthis1.
      * assert (Hne : player <> p).
        { intros ->. apply Hp. apply list_elem_of_fmap.
          exists (p, bet). split; [reflexivity | exact Hin]. }
        specialize (Hthese player bet Hin). rewrite Hname in Hthese.
        rewrite (Hother1 player Hne) in Hthese. exact Hthese.
Qed.

(** X14: after [hand_complete], the record of every other player listed in
    [player_bets] counts one more hand seen, one more raise when the final
    bet exceeds two big blinds, and one more win when the player is a
    winner; a player without a record starts from zeros.  The policy's own
    name and the players not listed keep what they had. *)
Theorem hand_complete_opponent_stats game_state hand_result s (player : string) :
  match player_bets game_state !! player with
  | Some bet =>
      if bool_decide (player = name s)
      then opponent_stats (hand_complete game_state hand_result s).2 !! player
           = opponent_stats s !! player
      else exists after,
             opponent_stats (hand_complete game_state hand_result s).2 !! player
             = Some after
             /\ hand_recorded game_state hand_result player bet
                  (default (mkStats 0 0 0) (opponent_stats s !! player)) after
  | None =>
      opponent_stats (hand_complete game_state hand_result s).2 !! player
      = opponent_stats s !! player
  end.
Proof.
  destruct (hand_complete_run game_state hand_result s)
    as (s2 & (Hname & _ & _ & _ & Hstats) & ->).
  destruct (opponent_loop_run game_state hand_result
              (map_to_list (player_bets game_state))
              (NoDup_fst_map_to_list _) s2)
    as (s' & Hrun & _ & Hother & Hthese).
  unfold try_pass. rewrite Hrun. simpl.
  rewrite <- Hstats, <- Hname.
  destruct (player_bets game_state !! player) as [bet|] eqn:Hbet.
  - apply Hthese. apply elem_of_map_to_list. exact Hbet.
  - apply Hother. intros Hin. apply list_elem_of_fmap in Hin.
    destruct Hin as ([q b] & -> & Hin). apply elem_of_map_to_list in Hin.
    simpl in Hbet. congruence.
Qed.

(** X15: [hand_complete] returns and leaves the name, [last_raised_preflop]
    and both confidence thresholds as they were. *)
Theorem hand_complete_frame game_state hand_result s :
  (hand_complete game_state hand_result s).1 = Ok tt
  /\ name (hand_complete game_state hand_result s).2 = name s
  /\ last_raised_preflop (hand_complete game_state hand_result s).2
     = last_raised_preflop s
  /\ min_confidence_to_raise (hand_complete game_state hand_result s).2
     = min_confidence_to_raise s
  /\ min_confidence_to_play (hand_complete game_state hand_result s).2
     = min_confidence_to_play s.
Proof.
  destruct (hand_complete_run game_state hand_result s)
    as (s2 & (Hname & Hflag & Hraise & Hplay & _) & ->).
  pose proof (opponent_loop_frame game_state hand_result s2) as Hloop.
  pose proof (try_pass_ok (for_each (map_to_list (player_bets game_state))
                             (update_opponent game_state hand_result)) s2) as Hok.
  destruct (try_pass _ s2) as [r s3]. simpl in *.
  destruct Hloop as (Hn & _ & _ & _ & Hf & Hr & Hp).
  split; [exact Hok|]. repeat split; congruence.
Qed.

(** * Further properties of the aggression update *)

Lemma ltb_finite_intro (m m' : positive) (e e' : Z) :
  e < e' \/ (e = e' /\ Z.pos m < Z.pos m') ->
  SFltb (S754_finite false m e) (S754_finite false m' e') = true.
Proof.
  intros Hc. unfold SFltb, SFcompare.
  destruct (Z.compare_spec e e') as [He|He|He].
  - rewrite compare_cont_Eq.
    destruct (Z.compare_spec (Z.pos m) (Z.pos m')); try reflexivity; lia.
  - reflexivity.
  - lia.
Qed.

(** adding 0.01 to a double of [0.3, 0.8] gives a larger double *)
Lemma add_f001_increases (a : spec_float) :
  valid_binary 53 1024 a = true -> SFleb f03 a = true -> SFleb a f08 = true ->
  SFltb a (SFadd 53 1024 a f001) = true.
Proof.
  intros Hv Hlo Hhi.
  destruct (in_range_inv a Hv Hlo Hhi) as (m & e & -> & Hm & [[-> Hb]|[-> Hb]]).
  - rewrite SFadd_f001_54.
    destruct (Z.lt_ge_cases (32 * Z.pos m + Z.pos c01) (2 ^ 58)) as [Hlt|Hge].
    + destruct (binary_normalize_normal (32 * Z.pos m + Z.pos c01) (-59) 5)
        as (m' & e' & -> & Hm' & Hcase); [ | lia | lia | ].
      { change (2 ^ (52 + 5)) with 144115188075855872.
        change (2 ^ (53 + 5)) with (2 ^ 58). pow2. }
      assert (Hdiv : Z.pos m + 1 <= (32 * Z.pos m + Z.pos c01) / 2 ^ 5)
        by (apply Z.div_le_lower_bound; [lia | change (2 ^ 5) with 32; pow2]).
      apply ltb_finite_intro. destruct Hcase as [[-> Hr]|[-> _]]; [right|left]; lia.
    + destruct (binary_normalize_normal (32 * Z.pos m + Z.pos c01) (-59) 6)
        as (m' & e' & -> & Hm' & Hcase); [ | lia | lia | ].
      { change (2 ^ (52 + 6)) with (2 ^ 58).
        change (2 ^ (53 + 6)) with 576460752303423488. split; [lia|pow2]. }
      apply ltb_finite_intro. left. lia.
  - rewrite SFadd_f001_53.
    destruct (binary_normalize_normal (64 * Z.pos m + Z.pos c01) (-59) 6)
      as (m' & e' & -> & Hm' & Hcase); [ | lia | lia | ].
    { change (2 ^ (52 + 6)) with 288230376151711744.
      change (2 ^ (53 + 6)) with 576460752303423488. pow2. }
    assert (Hdiv : Z.pos m + 1 <= (64 * Z.pos m + Z.pos c01) / 2 ^ 6)
      by (apply Z.div_le_lower_bound; [lia | change (2 ^ 6) with 64; pow2]).
    apply ltb_finite_intro. destruct Hcase as [[-> Hr]|[-> _]]; [right|left]; lia.
Qed.

(** subtracting 0.005 from a double of [0.3, 0.8] gives a smaller double *)
Lemma sub_f0005_decreases (a : spec_float) :
  valid_binary 53 1024 a = true -> SFleb f03 a = true -> SFleb a f08 = true ->
  SFltb (SFsub 53 1024 a f0005) a = true.
Proof.
  intros Hv Hlo Hhi.
  destruct (in_range_inv a Hv Hlo Hhi) as (m & e & -> & Hm & [[-> Hb]|[-> Hb]]).
  - rewrite SFsub_f0005_54.
    destruct (binary_normalize_normal (64 * Z.pos m - Z.pos c01) (-60) 6)
      as (m' & e' & -> & Hm' & Hcase); [ | lia | lia | ].
    { change (2 ^ (52 + 6)) with 288230376151711744.
      change (2 ^ (53 + 6)) with 576460752303423488. pow2. }
    assert (Hdiv : (64 * Z.pos m - Z.pos c01) / 2 ^ 6 < Z.pos m - 1)
      by (apply Z.div_lt_upper_bound; [lia | change (2 ^ 6) with 64; pow2]).
    apply ltb_finite_intro.
    destruct Hcase as [[-> Hr]|[_ [_ Hx]]]; [right; lia | pow2].
  - rewrite SFsub_f0005_53.
    destruct (Z.lt_ge_cases (128 * Z.pos m - Z.pos c01) (2 ^ 59)) as [Hlt|Hge].
    + destruct (binary_normalize_normal (128 * Z.pos m - Z.pos c01) (-60) 6)
        as (m' & e' & -> & Hm' & Hcase); [ | lia | lia | ].
      { change (2 ^ (52 + 6)) with 288230376151711744.
        change (2 ^ (53 + 6)) with (2 ^ 59). split; [pow2|lia]. }
      apply ltb_finite_intro.
      destruct Hcase as [[-> _]|[-> [Hm52 Hx]]]; [left; lia|right].
      split; [lia|]. rewrite Hm52.
      assert (Hmul : 2 ^ 6 * (2 ^ 53 - 1) <= 128 * Z.pos m - Z.pos c01).
      { rewrite <- Hx. apply Z.mul_div_le. lia. }
      change (2 ^ 6) with 64 in Hmul. pow2.
    + destruct (binary_normalize_normal (128 * Z.pos m - Z.pos c01) (-60) 7)
        as (m' & e' & -> & Hm' & Hcase); [ | lia | lia | ].
      { change (2 ^ (52 + 7)) with (2 ^ 59).
        change (2 ^ (53 + 7)) with 1152921504606846976. split; [lia|pow2]. }
      assert (Hdiv : (128 * Z.pos m - Z.pos c01) / 2 ^ 7 < Z.pos m - 1)
        by (apply Z.div_lt_upper_bound; [lia | change (2 ^ 7) with 128; pow2]).
      apply ltb_finite_intro.
      destruct Hcase as [[-> Hr]|[_ [_ Hx]]]; [right; lia | pow2].
Qed.

(** X16: after a hand the policy's owner won, [aggression] is the cap 0.8 or
    strictly larger than before; after any other hand it is the floor 0.3
    or strictly smaller than before. *)
Theorem hand_complete_moves_aggression game_state hand_result s :
  aggression_in_range s ->
  if is_winner hand_result s
  then aggression (hand_complete game_state hand_result s).2 = Float64.dec 8 10
       \/ Float64.ltb (aggression s)
                      (aggression (hand_complete game_state hand_result s).2) = true
  else aggression (hand_complete game_state hand_result s).2 = Float64.dec 3 10
       \/ Float64.ltb (aggression (hand_complete game_state hand_result s).2)
                      (aggression s) = true.
Proof.
  intros (Hv & Hlo & Hhi). rewrite dec_3_10 in Hlo. rewrite dec_8_10 in Hhi.
  destruct (hand_complete_effect game_state hand_result s)
    as (s' & -> & _ & _ & Ha).
  simpl. rewrite Ha. rewrite dec_3_10, dec_8_10, dec_1_100, dec_5_1000.
  destruct (is_winner hand_result s).
  - unfold Float64.py_min.
    destruct (Float64.ltb (Float64.add (aggression s) f001) f08); [right|left; reflexivity].
    apply add_f001_increases; assumption.
  - unfold Float64.py_max.
    destruct (Float64.gtb (Float64.sub (aggression s) f0005) f03);
      [right|left; reflexivity].
    apply sub_f0005_decreases; assumption.
Qed.

Lemma hand_complete_moves_aggression_witness :
  aggression_in_range Examples.seasoned
  /\ Float64.ltb (aggression Examples.seasoned)
       (aggression
          (hand_complete Examples.flop_state (mkHandResult (Some ["NATHAN"%string]))
                         Examples.seasoned).2) = true.
Proof.
  assert (Hin : aggression_in_range Examples.seasoned)
    by (repeat split; vm_compute; reflexivity).
  split; [exact Hin|].
  pose proof (hand_complete_moves_aggression Examples.flop_state
                (mkHandResult (Some ["NATHAN"%string])) Examples.seasoned Hin) as Hmove.
  vm_compute in Hmove. destruct Hmove as [Hcap|Hup]; [discriminate Hcap|].
  vm_compute. exact Hup.
Defined.

(** * The instance over its life *)

Section Life.
Context `{EngineAPI}.

Lemma get_action_changes_only_flag game_state hole_cards legal_actions min_bet max_bet :
  changes_only same_but_flag
    (get_action game_state hole_cards legal_actions min_bet max_bet).
Proof.
  assert (Heq : forall s s', s = s' -> same_but_flag s s')
    by (intros s s' ->; reflexivity).
  unfold get_action. destruct legal_actions as [|a0 legal'].
  - apply changes_only_ret; exact _.
  - destruct (String.eqb _ _).
    + repeat frame_step.
      eapply changes_only_weaken; [exact Heq | apply _preflop_read_only].
    + eapply changes_only_weaken; [exact Heq | apply _postflop_read_only].
Qed.

Lemma tournament_start_counters players starting_chips s :
  hands_played (tournament_start players starting_chips s).2 = 0
  /\ hands_won (tournament_start players starting_chips s).2 = 0.
Proof.
  unfold tournament_start. run_head.
  destruct (length players <=? 4)%nat; [split; reflexivity|].
  destruct (8 <=? length players)%nat; split; reflexivity.
Qed.

Lemma handle_keeps_invariant (s : NATHANBot) (e : Event) :
  aggression_in_range s /\ counters_consistent s ->
  aggression_in_range (handle s e) /\ counters_consistent (handle s e).
Proof.
  intros [(Hv & Hlo & Hhi) Hc]. unfold counters_consistent in *.
  destruct e as [c|game_state hand_result|players starting_chips]; simpl.
  - destruct (get_action_changes_only_flag (call_state c) (call_hole c) (call_legal c)
                (call_min c) (call_max c) s) as (_ & Hp & Hw & Ha & _).
    unfold decide_call, aggression_in_range. rewrite Hp, Hw, Ha. tauto.
  - destruct (hand_complete_effect game_state hand_result s)
      as (s' & -> & Hp & Hw & Ha).
    simpl. unfold aggression_in_range. rewrite Hp, Hw, Ha.
    rewrite dec_3_10, dec_8_10, dec_1_100, dec_5_1000 in *.
    destruct (is_winner hand_result s).
    + split; [apply aggression_after_win; assumption | lia].
    + split; [apply aggression_after_loss; assumption | lia].
  - destruct (tournament_start_counters players starting_chips s) as [-> ->].
    split; [|lia].
    unfold aggression_in_range. rewrite tournament_start_aggression.
    destruct (length players <=? 4)%nat;
      [|destruct (8 <=? length players)%nat];
      repeat split; vm_compute; reflexivity.
Qed.

(** X17: on a fresh instance, after any sequence of decisions, completed
    hands and tournament starts, [aggression] is a double in [0.3, 0.8] and
    [0 <= hands_won <= hands_played]. *)
Theorem lifecycle_invariant (events : list Event) (nm : string) :
  aggression_in_range (lifecycle events (init nm))
  /\ counters_consistent (lifecycle events (init nm)).
Proof.
  assert (Hinit : aggression_in_range (init nm) /\ counters_consistent (init nm)).
  { split; [repeat split; vm_compute; reflexivity|].
    unfold counters_consistent. simpl. lia. }
  revert Hinit. generalize (init nm). unfold lifecycle.
  induction events as [|e events IH]; intros s Hs; [exact Hs|].
  simpl. apply IH, handle_keeps_invariant, Hs.
Qed.

End Life.

(** * The value heuristic *)

(** The product of two positive normal doubles of moderate exponent is
    within one unit in the last place of the exact product. *)
Lemma mul_finite_bounds (m1 m2 : positive) (e1 e2 : Z) :
  2 ^ 52 <= Z.pos m1 < 2 ^ 53 -> 2 ^ 52 <= Z.pos m2 < 2 ^ 53 ->
  -1126 <= e1 + e2 <= 917 ->
  exists m e d,
    Float64.mul (S754_finite false m1 e1) (S754_finite false m2 e2) =
    S754_finite false m e
    /\ 2 ^ 52 <= Z.pos m < 2 ^ 53
    /\ e = e1 + e2 + d
    /\ (d = 52 \/ d = 53 \/ d = 54)
    /\ Z.pos m1 * Z.pos m2 - 2 ^ d <= Z.pos m * 2 ^ d <= Z.pos m1 * Z.pos m2 + 2 ^ d.
Proof.
  intros H1 H2 He. unfold Float64.mul, SFmul. simpl xorb.
  assert (Hp : 2 ^ 104 <= Z.pos (m1 * m2) < 2 ^ 106).
  { change (Z.pos (m1 * m2)) with (Z.pos m1 * Z.pos m2).
    change (2 ^ 104) with (2 ^ 52 * 2 ^ 52). change (2 ^ 106) with (2 ^ 53 * 2 ^ 53).
    split; [apply Z.mul_le_mono_nonneg; lia | apply Z.mul_lt_mono_nonneg; lia]. }
  change (Z.pos m1 * Z.pos m2) with (Z.pos (m1 * m2)).
  set (M := Z.pos (m1 * m2)) in *.
  assert (Hround : forall k : positive,
             (Z.pos k = 52 \/ Z.pos k = 53) ->
             2 ^ (52 + Z.pos k) <= M < 2 ^ (53 + Z.pos k) ->
             exists m e d,
               binary_round_aux 53 1024 false M (e1 + e2) loc_Exact
               = S754_finite false m e
               /\ 2 ^ 52 <= Z.pos m < 2 ^ 53 /\ e = e1 + e2 + d
               /\ (d = 52 \/ d = 53 \/ d = 54)
               /\ M - 2 ^ d <= Z.pos m * 2 ^ d <= M + 2 ^ d).
  { intros k Hk HM.
    destruct (binary_round_aux_normal (m1 * m2) (e1 + e2) k)
      as (m & e & Hr & Hm & Hcase); [ | lia | lia | ].
    { apply digits2_pos_unique.
      replace (53 + Z.pos k - 1) with (52 + Z.pos k) by lia. exact HM. }
    fold M in Hr, Hcase.
    assert (Hpk : 0 < 2 ^ Z.pos k) by (apply Z.pow_pos_nonneg; lia).
    pose proof (Z.mul_div_le M (2 ^ Z.pos k) Hpk) as Hle.
    pose proof (Z.mul_succ_div_gt M (2 ^ Z.pos k) Hpk) as Hgt.
    destruct Hcase as [[-> Hb]|[-> [Hm52 Hx]]].
    - exists m, (e1 + e2 + Z.pos k), (Z.pos k).
      split; [exact Hr|]. split; [exact Hm|]. split; [reflexivity|].
      split; [lia|]. nia.
    - exists m, (e1 + e2 + Z.pos k + 1), (Z.pos k + 1).
      split; [exact Hr|]. split; [exact Hm|]. split; [lia|].
      split; [lia|].
      rewrite Z.pow_add_r by lia. change (2 ^ 1) with 2.
      rewrite Hm52. rewrite Hx in Hle, Hgt.
      change (2 ^ 52) with 4503599627370496.
      change (2 ^ 53) with 9007199254740992 in Hle, Hgt. nia. }
  destruct (Z.lt_ge_cases M (2 ^ 105)) as [Hlt|Hge].
  - apply (Hround 52%positive); [left; reflexivity|].
    change (2 ^ (52 + 52)) with (2 ^ 104). change (2 ^ (53 + 52)) with (2 ^ 105). lia.
  - apply (Hround 53%positive); [right; reflexivity|].
    change (2 ^ (52 + 53)) with (2 ^ 105). change (2 ^ (53 + 53)) with (2 ^ 106). lia.
Qed.

Lemma int_to_float_10 :
  int_to_float 10 = Ok (S754_finite false 5629499534213120 (-49)).
Proof. vm_compute. reflexivity. Qed.

Lemma int_to_float_2 :
  int_to_float 2 = Ok (S754_finite false 4503599627370496 (-51)).
Proof. vm_compute. reflexivity. Qed.

Lemma value_bound_between (a : float) :
  Float64.valid a = true -> Float64.leb f03 a = true -> Float64.leb a f08 = true ->
  exists scaled bound,
    num_mul (Flt a) (Int 10) = Ok scaled
    /\ num_mul (Int 2) (num_max (Int 1) scaled) = Ok bound
    /\ forall pot, (17 <= pot -> num_gtb (Int pot) bound = true)
                   /\ (pot <= 5 -> num_gtb (Int pot) bound = false).
Proof.
  intros Hv Hlo Hhi.
  destruct (in_range_inv a Hv Hlo Hhi) as (m & e & -> & Hm & He).
  destruct (mul_finite_bounds m 5629499534213120 e (-49))
    as (m1 & e1 & d1 & Hmul1 & Hm1 & -> & Hd1 & Hb1);
    [exact Hm
    |change (2 ^ 52) with 4503599627370496; change (2 ^ 53) with 9007199254740992; lia
    |lia| ].
  destruct (mul_finite_bounds 4503599627370496 m1 (-51) (e + -49 + d1))
    as (m2 & e2 & d2 & Hmul2 & Hm2 & -> & Hd2 & Hb2);
    [change (2 ^ 52) with 4503599627370496; change (2 ^ 53) with 9007199254740992; lia
    |exact Hm1|lia| ].
  assert (Hmax : num_max (Int 1) (Flt (S754_finite false m1 (e + -49 + d1)))
                 = Flt (S754_finite false m1 (e + -49 + d1))).
  { unfold num_max, num_gtb, num_compare, Float64.Zcompare.
    replace (0 <=? e + -49 + d1) with false by (symmetry; apply Z.leb_gt; lia).
    cbn [fmap option_fmap option_map CompOpp].
    assert (Hlt : 1 * 2 ^ (- (e + -49 + d1)) < Z.pos m1).
    { assert (2 ^ (- (e + -49 + d1)) <= 2 ^ 51) by (apply Z.pow_le_mono_r; lia).
      change (2 ^ 51) with 2251799813685248 in *.
      change (2 ^ 52) with 4503599627370496 in *. lia. }
    apply Z.compare_lt_iff in Hlt. rewrite Hlt. reflexivity. }
  exists (Flt (S754_finite false m1 (e + -49 + d1))),
    (Flt (S754_finite false m2 (-51 + (e + -49 + d1) + d2))).
  split.
  { unfold num_mul. rewrite int_to_float_10. cbn [mbind result_bind].
    rewrite Hmul1. reflexivity. }
  split.
  { rewrite Hmax. unfold num_mul. rewrite int_to_float_2. cbn [mbind result_bind].
    rewrite Hmul2. reflexivity. }
  intros pot. unfold num_gtb, num_compare, Float64.Zcompare.
  replace (0 <=? -51 + (e + -49 + d1) + d2) with false by (symmetry; apply Z.leb_gt; lia).
  change (2 ^ 52) with 4503599627370496 in *.
  change (2 ^ 53) with 9007199254740992 in *.
  unfold m03, m08 in He.
  clear Hv Hlo Hhi Hmul1 Hmul2 Hmax.
  split; intros Hpot.
  - assert (Hgt : Z.pos m2 < pot * 2 ^ (- (-51 + (e + -49 + d1) + d2))).
    { destruct He as [[-> Hm03]|[-> Hm08]];
        destruct Hd1 as [-> | [-> | ->]]; destruct Hd2 as [-> | [-> | ->]];
        cbn [Z.add Z.opp Z.pow Z.pow_pos Pos.iter Z.mul Pos.mul Pos.add Pos.succ
             Z.pos_sub Pos.pred_double Z.double Z.succ_double Z.pred_double] in Hb1, Hb2 |- *;
        lia. }
    apply Z.compare_gt_iff in Hgt. rewrite Hgt. reflexivity.
  - assert (Hlt : pot * 2 ^ (- (-51 + (e + -49 + d1) + d2)) < Z.pos m2).
    { destruct He as [[-> Hm03]|[-> Hm08]];
        destruct Hd1 as [-> | [-> | ->]]; destruct Hd2 as [-> | [-> | ->]];
        cbn [Z.add Z.opp Z.pow Z.pow_pos Pos.iter Z.mul Pos.mul Pos.add Pos.succ
             Z.pos_sub Pos.pred_double Z.double Z.succ_double Z.pred_double] in Hb1, Hb2 |- *;
        lia. }
    apply Z.compare_lt_iff in Hlt. rewrite Hlt. reflexivity.
Qed.

Section ValueHeuristic.
Context `{EngineAPI}.

(** X18: with a pair or better and the aggression in its interval,
    [_should_bluff_or_value] answers [True] for every pot of 17 or more and
    [False] for every pot of 5 or less: the bound [2 * max(1, aggression * 10)]
    lies strictly between 5 and 17. *)
Theorem should_bluff_or_value_thresholds (pot rank_value : Z) (s : NATHANBot) :
  aggression_in_range s ->
  default 1 (HAND_RANKINGS !! "pair"%string) <= rank_value ->
  (17 <= pot -> _should_bluff_or_value pot rank_value s = (Ok true, s))
  /\ (pot <= 5 -> _should_bluff_or_value pot rank_value s = (Ok false, s)).
Proof.
  intros (Hv & Hlo & Hhi) Hrank.
  rewrite dec_3_10 in Hlo. rewrite dec_8_10 in Hhi.
  destruct (value_bound_between (aggression s) Hv Hlo Hhi)
    as (scaled & bound & Hscaled & Hbound & Hcmp).
  assert (Hrun : _should_bluff_or_value pot rank_value s
                 = (Ok (num_gtb (Int pot) bound), s)).
  { unfold _should_bluff_or_value.
    apply Z.leb_le in Hrank. rewrite Hrank.
    rewrite bind_run, self_get_run. cbv beta iota.
    rewrite bind_run. unfold lift at 1. rewrite Hscaled. cbv beta iota.
    rewrite bind_run. unfold lift at 1. rewrite Hbound. reflexivity. }
  rewrite Hrun. destruct (Hcmp pot) as [Hhigh Hlow].
  split; intros Hpot; [rewrite (Hhigh Hpot)|rewrite (Hlow Hpot)]; reflexivity.
Qed.

End ValueHeuristic.

Lemma should_bluff_or_value_thresholds_witness :
  aggression_in_range (Examples.seasoned)
  /\ @_should_bluff_or_value SampleEngine.engine 20 2 (Examples.seasoned)
     = (Ok true, Examples.seasoned).
Proof.
  assert (Hrange : aggression_in_range (Examples.seasoned))
    by (repeat split; vm_compute; reflexivity).
  split; [exact Hrange|].
  apply (@should_bluff_or_value_thresholds SampleEngine.engine 20 2 (Examples.seasoned) Hrange).
  - vm_compute. discriminate.
  - lia.
Defined.

(** * Runs of the further properties *)

Lemma get_action_returns_witness :
  0 <= pot Examples.preflop_state < 2 ^ 53
  /\ exists action s',
       @get_action SampleEngine.engine Examples.preflop_state Examples.aces
         [FOLD; CALL; RAISE] 20 1000 Examples.me = (Ok action, s').
Proof.
  assert (Hpot : 0 <= pot Examples.preflop_state < 2 ^ 53) by (vm_compute; split; [discriminate|reflexivity]).
  split; [exact Hpot|].
  apply (@get_action_returns SampleEngine.engine Examples.preflop_state Examples.aces
           [FOLD; CALL; RAISE] 20 1000 Examples.me Hpot).
  left. reflexivity.
Defined.

Lemma get_action_well_sized_witness :
  @get_action SampleEngine.engine Examples.preflop_state Examples.aces
    [FOLD; CALL; RAISE] 20 1000 Examples.me =
  (Ok (RAISE, 60), set_last_raised_preflop true Examples.me)
  /\ well_sized 20 1000 (RAISE, 60).
Proof.
  assert (Hrun : @get_action SampleEngine.engine Examples.preflop_state Examples.aces
                   [FOLD; CALL; RAISE] 20 1000 Examples.me =
                 (Ok (RAISE, 60), set_last_raised_preflop true Examples.me))
    by (vm_compute; reflexivity).
  split; [exact Hrun|].
  exact (@get_action_well_sized SampleEngine.engine Examples.preflop_state
           Examples.aces [FOLD; CALL; RAISE] 20 1000 Examples.me (RAISE, 60)
           (set_last_raised_preflop true Examples.me) Hrun).
Defined.

Lemma get_action_checks_before_folding_witness :
  CHECK ∈ [CHECK; RAISE]
  /\ @get_action SampleEngine.engine Examples.preflop_state Examples.seven_deuce
       [CHECK; RAISE] 20 1000 Examples.me =
     (Ok (CHECK, 0), set_last_raised_preflop false Examples.me)
  /\ (CHECK, 0).1 <> FOLD.
Proof.
  assert (Hin : CHECK ∈ [CHECK; RAISE]) by apply list_elem_of_here.
  assert (Hrun : @get_action SampleEngine.engine Examples.preflop_state
                   Examples.seven_deuce [CHECK; RAISE] 20 1000 Examples.me =
                 (Ok (CHECK, 0), set_last_raised_preflop false Examples.me))
    by (vm_compute; reflexivity).
  split; [exact Hin|]. split; [exact Hrun|].
  apply (@get_action_checks_before_folding SampleEngine.engine Examples.preflop_state
           Examples.seven_deuce [CHECK; RAISE] 20 1000 Examples.me (CHECK, 0)
           (set_last_raised_preflop false Examples.me) Hin).
  - right. reflexivity.
  - exact Hrun.
Defined.

Lemma get_action_malformed_hole_cards_witness :
  @get_action SampleEngine.engine Examples.preflop_state [mkCard ACE SPADES]
    [FOLD; CALL; RAISE] 20 1000 Examples.me =
  (Ok (FOLD, 0), set_last_raised_preflop false Examples.me).
Proof.
  apply (@get_action_malformed_hole_cards SampleEngine.engine Examples.preflop_state
           [mkCard ACE SPADES] [FOLD; CALL; RAISE] 20 1000 Examples.me).
  - discriminate.
  - reflexivity.
  - simpl. lia.
Defined.

Lemma get_action_unknown_hand_type_witness :
  @HAND_RANKINGS Scenarios.engine_without_rankings
    !! @evaluate_best_hand Scenarios.engine_without_rankings
         (Examples.aces ++ community_cards Examples.flop_state_with_entry) = None
  /\ @get_action Scenarios.engine_without_rankings Examples.flop_state_with_entry
       Examples.aces [FOLD; CHECK] 20 1000 Examples.me = (Raise KeyError, Examples.me).
Proof.
  split; [reflexivity|].
  apply (@get_action_unknown_hand_type Scenarios.engine_without_rankings
           Examples.flop_state_with_entry Examples.aces [FOLD; CHECK] 20 1000
           Examples.me).
  - discriminate.
  - reflexivity.
  - reflexivity.
Defined.

Lemma get_action_missing_own_bet_witness :
  player_bets Examples.flop_state !! name Examples.seasoned = None
  /\ @get_action SampleEngine.engine Examples.flop_state Examples.aces
       [FOLD; CALL; RAISE] 20 1000 Examples.seasoned = (Raise KeyError, Examples.seasoned).
Proof.
  split; [vm_compute; reflexivity|].
  apply (@get_action_missing_own_bet SampleEngine.engine Examples.flop_state
           Examples.aces [FOLD; CALL; RAISE] 20 1000 Examples.seasoned 2).
  - reflexivity.
  - vm_compute. reflexivity.
  - vm_compute. split; [discriminate|reflexivity].
  - apply list_elem_of_further, list_elem_of_here.
  - reflexivity.
  - vm_compute. reflexivity.
Defined.

Lemma get_action_raises_strong_hand_witness :
  RAISE ∈ [FOLD; CALL; RAISE]
  /\ exists amount,
       @get_action SampleEngine.engine Examples.flop_state Scenarios.sevens_and_deuces
         [FOLD; CALL; RAISE] 20 1000 Examples.me = (Ok (RAISE, amount), Examples.me).
Proof.
  assert (Hin : RAISE ∈ [FOLD; CALL; RAISE])
    by (apply list_elem_of_further, list_elem_of_further, list_elem_of_here).
  split; [exact Hin|].
  apply (@get_action_raises_strong_hand SampleEngine.engine Examples.flop_state
           Scenarios.sevens_and_deuces [FOLD; CALL; RAISE] 20 1000 Examples.me 3).
  - reflexivity.
  - vm_compute. split; [discriminate|reflexivity].
  - vm_compute. reflexivity.
  - vm_compute. discriminate.
  - exact Hin.
Defined.
